(** * BLE GATT server wrappers: BLEDescriptor and BLEService

    A shallow embedding of [cpp_utils/BLEDescriptor.cpp] and
    [cpp_utils/BLEService.cpp], and the properties of the two wrappers.

    Conventions of the embedding:
    - unsigned C integers ([uint16_t], [size_t], [esp_gatt_if_t]) are [N];
      a store into a [uint16_t] field from a wider type is written
      [to_uint16];
    - a C++ pointer to a characteristic or a service is an [option] of an
      address in a heap ([None] is [nullptr]); dereferencing [nullptr] or an
      address that holds no object is undefined behaviour, [Fault];
    - every member function returns in the monad [M]: either its result and
      the list of effects it had on the outside world (calls into the vendor
      stack, error log statements, lock operations, forwarded events), or
      [Fault], or [Blocked] (the caller waits on the lock);
    - the status a vendor call returns is an argument [errRc] of the
      function that makes the call. *)

From Stdlib Require Import NArith ZArith List Bool String Lia.
From Stdlib Require Import Init.Byte.
From Stdlib Require Import Ascii Hexadecimal HexadecimalString HexadecimalN.
From stdpp Require Import base option list gmap.
Import ListNotations.

Open Scope N_scope.

(** ** Vendor types (ESP-IDF), as far as the two sources read them *)

Abbreviation addr := N (only parsing).
Abbreviation ptr := (option N) (only parsing).

Definition esp_err_t := Z.
Definition ESP_OK : esp_err_t := 0%Z.

Definition esp_gatt_status_t := N.
Definition ESP_GATT_OK : esp_gatt_status_t := 0.

Inductive esp_gatt_auth_req_t :=
| ESP_GATT_AUTH_REQ_NONE
| ESP_GATT_AUTH_REQ_NO_MITM
| ESP_GATT_AUTH_REQ_MITM
| ESP_GATT_AUTH_REQ_SIGNED_NO_MITM
| ESP_GATT_AUTH_REQ_SIGNED_MITM.

Inductive esp_gatt_perm_t :=
| ESP_GATT_PERM_READ
| ESP_GATT_PERM_WRITE.

(** Modelled from the spec: BLEUUID ([BLEUUID.cpp] is not among the sources).
    The two sources only store UUIDs, wrap and unwrap the native
    [esp_bt_uuid_t], and compare with [equals]; a UUID is represented by its
    numeric value and [equals] is equality of values. *)
Abbreviation esp_bt_uuid_t := N (only parsing).
Abbreviation BLEUUID := N (only parsing).

Definition BLEUUID_of_native (u : esp_bt_uuid_t) : BLEUUID := u.
Definition getNative (u : BLEUUID) : esp_bt_uuid_t := u.
Definition equals (a b : BLEUUID) : bool := (a =? b).

Record esp_gatt_id_t := {
  id_uuid : esp_bt_uuid_t;
  id_inst_id : N
}.

Record esp_gatt_srvc_id_t := {
  srvc_id : esp_gatt_id_t;
  srvc_is_primary : bool
}.

Record esp_attr_value_t := {
  attr_max_len : N;
  attr_len : N;
  attr_value : list byte
}.

(** [esp_gatt_rsp_t.attr_value]. [rsp_value] holds the first [rsp_len] bytes
    of the array [value[]]; the code leaves the rest of the array
    uninitialised. *)
Record esp_gatt_rsp_t := {
  rsp_value : list byte;
  rsp_handle : N;
  rsp_offset : N;
  rsp_len : N;
  rsp_auth_req : esp_gatt_auth_req_t
}.

Inductive esp_gatts_cb_event_t :=
| ESP_GATTS_READ_EVT
| ESP_GATTS_WRITE_EVT
| ESP_GATTS_CREATE_EVT
| ESP_GATTS_ADD_CHAR_EVT
| ESP_GATTS_ADD_CHAR_DESCR_EVT
| ESP_GATTS_OTHER_EVT (code : N).

Record gatts_read_evt_param := {
  read_conn_id : N;
  read_trans_id : N;
  read_handle : N;
  read_offset : N;
  read_is_long : bool;
  read_need_rsp : bool
}.

(** [write_value] is the buffer [value] points to. *)
Record gatts_write_evt_param := {
  write_conn_id : N;
  write_trans_id : N;
  write_handle : N;
  write_offset : N;
  write_need_rsp : bool;
  write_is_prep : bool;
  write_len : N;
  write_value : list byte
}.

Record gatts_create_evt_param := {
  create_status : esp_gatt_status_t;
  create_service_handle : N;
  create_service_id : esp_gatt_srvc_id_t
}.

Record gatts_add_char_evt_param := {
  add_char_status : esp_gatt_status_t;
  add_char_attr_handle : N;
  add_char_service_handle : N;
  add_char_char_uuid : esp_bt_uuid_t
}.

Record gatts_add_char_descr_evt_param := {
  add_char_descr_status : esp_gatt_status_t;
  add_char_descr_attr_handle : N;
  add_char_descr_service_handle : N;
  add_char_descr_char_uuid : esp_bt_uuid_t
}.

(** [esp_ble_gatts_cb_param_t] is a C union: whatever event was delivered,
    the code can read it through any member.  The model has one field per
    member the sources read.  How the members overlap in memory is fixed by
    the vendor header, which is not part of the sources, and is left
    unconstrained. *)
Record esp_ble_gatts_cb_param_t := {
  read : gatts_read_evt_param;
  write : gatts_write_evt_param;
  create : gatts_create_evt_param;
  add_char : gatts_add_char_evt_param;
  add_char_descr : gatts_add_char_descr_evt_param
}.

(** ** Effects and the monad of member functions *)

Inductive effect :=
| esp_ble_gatts_create_service (gatts_if : N) (service_id : esp_gatt_srvc_id_t) (num_handle : N)
| esp_ble_gatts_add_char_descr (service_handle : N) (descr_uuid : esp_bt_uuid_t)
    (perm : list esp_gatt_perm_t) (char_descr_val : esp_attr_value_t)
| esp_ble_gatts_send_response (gatts_if conn_id trans_id : N)
    (status : esp_gatt_status_t) (rsp : esp_gatt_rsp_t)
| ESP_LOGE (tag format : string)
| Mutex_take (owner : string)
| Mutex_give
| BLECharacteristicMap_handleGATTServerEvent (event : esp_gatts_cb_event_t)
    (gatts_if : N) (param : esp_ble_gatts_cb_param_t).

Inductive result (A : Type) :=
| Ok (a : A)
| Fault
| Blocked.
Arguments Ok {A} a.
Arguments Fault {A}.
Arguments Blocked {A}.

Definition M (A : Type) : Type := result (A * list effect).

Definition ret {A} (a : A) : M A := Ok (a, []).

Definition bind {A B} (m : M A) (f : A -> M B) : M B :=
  match m with
  | Ok (a, t) =>
      match f a with
      | Ok (b, t') => Ok (b, t ++ t')
      | Fault => Fault
      | Blocked => Blocked
      end
  | Fault => Fault
  | Blocked => Blocked
  end.

Notation "'do' x <- m ; k" := (bind m (fun x => k))
  (at level 10, x name, m at level 100, k at level 200).
Notation "'do' ' p <- m ; k" := (bind m (fun p => k))
  (at level 10, p pattern, m at level 100, k at level 200).
Notation "m ;; k" := (bind m (fun _ => k))
  (at level 100, k at level 200, right associativity).

Definition emit (e : effect) : M unit := Ok (tt, [e]).

Definition fault {A} : M A := Fault.

(** Dereference of a pointer into a heap of objects. *)
Definition deref {A} (heap : gmap N A) (p : ptr) : M A :=
  match p with
  | None => fault
  | Some a =>
      match heap !! a with
      | Some o => ret o
      | None => fault
      end
  end.

Definition ptr_eqb (p q : ptr) : bool :=
  match p, q with
  | None, None => true
  | Some a, Some b => (a =? b)
  | _, _ => false
  end.

Definition to_uint16 (n : N) : N := n mod 2 ^ 16.

(** [memcpy dst src n]: the first [n] bytes of [dst] are replaced by the
    first [n] bytes of [src]; reading or writing past the end of either
    block is undefined. *)
Definition memcpy (dst src : list byte) (n : N) : M (list byte) :=
  if (n <=? N.of_nat (List.length src)) && (n <=? N.of_nat (List.length dst))
  then ret (firstn (N.to_nat n) src ++ skipn (N.to_nat n) dst)
  else fault.

(** ** Stream formatting *)

(** [std::setw(width)] with [std::setfill(fill)], applied to the text of one
    output: the text is padded on the left up to [width] characters. *)
Definition setw (width : nat) (fill : ascii) (text : string) : string :=
  String.append (string_of_list_ascii (repeat fill (width - String.length text))) text.

(** An unsigned integer written with [std::hex]: lower-case hexadecimal
    digits, no prefix. *)
Definition hex (n : N) : string :=
  NilEmpty.string_of_uint (N.to_hex_uint n).

(** ** BLECharacteristic *)

(** Modelled from the spec: BLECharacteristic ([BLECharacteristic.cpp] is not
    among the sources).  Only the members the two sources call are modelled:
    [getUUID], [getService], [getHandle] and [setHandle]. *)
Module BLECharacteristic.

Record t := {
  m_bleUUID : BLEUUID;
  m_handle : N;
  m_pService : ptr
}.

Definition getUUID (this : t) : BLEUUID := m_bleUUID this.
Definition getService (this : t) : ptr := m_pService this.
Definition getHandle (this : t) : N := m_handle this.

Definition setHandle (this : t) (handle : N) : t :=
  {| m_bleUUID := m_bleUUID this;
     m_handle := handle;
     m_pService := m_pService this |}.

End BLECharacteristic.

(** ** BLECharacteristicMap *)

(** Modelled from the spec: BLECharacteristicMap ([BLECharacteristicMap.cpp]
    is not among the sources): "a collection of characteristics keyed by UUID
    and, once assigned, also indexable by handle".  The entries are pointers
    to characteristics. *)
Module BLECharacteristicMap.

Record t := {
  m_uuidMap : gmap N N;
  m_handleMap : gmap N N
}.

Definition empty : t := {| m_uuidMap := ∅; m_handleMap := ∅ |}.

Definition getByUUID (this : t) (uuid : BLEUUID) : ptr := m_uuidMap this !! uuid.
Definition getByHandle (this : t) (handle : N) : ptr := m_handleMap this !! handle.

Definition setByUUID (this : t) (uuid : BLEUUID) (pCharacteristic : addr) : t :=
  {| m_uuidMap := <[uuid := pCharacteristic]> (m_uuidMap this);
     m_handleMap := m_handleMap this |}.

Definition setByHandle (this : t) (handle : N) (pCharacteristic : addr) : t :=
  {| m_uuidMap := m_uuidMap this;
     m_handleMap := <[handle := pCharacteristic]> (m_handleMap this) |}.

End BLECharacteristicMap.

(** ** BLEService *)

Module BLEService.

Definition LOG_TAG : string := "BLEService".

(** Modelled from the spec: the serialization lock [m_serializeMutex] (its
    class is not among the sources) is either held ([true]) or free; taking a
    held lock blocks the caller, giving frees the lock. *)
Record t := {
  m_uuid : BLEUUID;
  m_handle : N;
  m_gatts_if : N;
  m_srvc_id : esp_gatt_srvc_id_t;
  m_serializeMutex : bool;
  m_lastCreatedCharacteristic : ptr;
  m_characteristicMap : BLECharacteristicMap.t
}.

Definition set_m_handle (this : t) (v : N) : t :=
  {| m_uuid := m_uuid this; m_handle := v; m_gatts_if := m_gatts_if this;
     m_srvc_id := m_srvc_id this; m_serializeMutex := m_serializeMutex this;
     m_lastCreatedCharacteristic := m_lastCreatedCharacteristic this;
     m_characteristicMap := m_characteristicMap this |}.

Definition set_m_gatts_if (this : t) (v : N) : t :=
  {| m_uuid := m_uuid this; m_handle := m_handle this; m_gatts_if := v;
     m_srvc_id := m_srvc_id this; m_serializeMutex := m_serializeMutex this;
     m_lastCreatedCharacteristic := m_lastCreatedCharacteristic this;
     m_characteristicMap := m_characteristicMap this |}.

Definition set_m_srvc_id (this : t) (v : esp_gatt_srvc_id_t) : t :=
  {| m_uuid := m_uuid this; m_handle := m_handle this; m_gatts_if := m_gatts_if this;
     m_srvc_id := v; m_serializeMutex := m_serializeMutex this;
     m_lastCreatedCharacteristic := m_lastCreatedCharacteristic this;
     m_characteristicMap := m_characteristicMap this |}.

Definition set_m_serializeMutex (this : t) (v : bool) : t :=
  {| m_uuid := m_uuid this; m_handle := m_handle this; m_gatts_if := m_gatts_if this;
     m_srvc_id := m_srvc_id this; m_serializeMutex := v;
     m_lastCreatedCharacteristic := m_lastCreatedCharacteristic this;
     m_characteristicMap := m_characteristicMap this |}.

Definition set_m_characteristicMap (this : t) (v : BLECharacteristicMap.t) : t :=
  {| m_uuid := m_uuid this; m_handle := m_handle this; m_gatts_if := m_gatts_if this;
     m_srvc_id := m_srvc_id this; m_serializeMutex := m_serializeMutex this;
     m_lastCreatedCharacteristic := m_lastCreatedCharacteristic this;
     m_characteristicMap := v |}.

(** The lock operations. *)
Definition take (this : t) (owner : string) : M t :=
  if m_serializeMutex this then Blocked
  else emit (Mutex_take owner) ;; ret (set_m_serializeMutex this true).

Definition give (this : t) : M t :=
  emit Mutex_give ;; ret (set_m_serializeMutex this false).

(** The constructor.  It leaves [m_srvc_id] uninitialised: [srvc_id0] is
    whatever the member holds then. *)
Definition BLEService (uuid : BLEUUID) (srvc_id0 : esp_gatt_srvc_id_t) : t :=
  {| m_uuid := uuid;
     m_handle := 0;
     m_gatts_if := 0;
     m_srvc_id := srvc_id0;
     m_serializeMutex := false;
     m_lastCreatedCharacteristic := None;
     m_characteristicMap := BLECharacteristicMap.empty |}.

Definition getUUID (this : t) : BLEUUID := m_uuid this.
Definition getHandle (this : t) : N := m_handle this.
Definition setHandle (this : t) (handle : N) : t := set_m_handle this handle.
Definition getService (this : t) : esp_gatt_srvc_id_t := m_srvc_id this.
Definition setService (this : t) (srvc_id : esp_gatt_srvc_id_t) : t := set_m_srvc_id this srvc_id.

Definition getLastCreatedCharacteristic (this : t) : ptr :=
  m_lastCreatedCharacteristic this.

Definition getCharacteristic (this : t) (uuid : BLEUUID) : ptr :=
  BLECharacteristicMap.getByUUID (m_characteristicMap this) uuid.

(** [dump] only writes debug output. *)
Definition dump (this : t) : M unit := ret tt.

(** [executeCreate]: [errRc] is what [esp_ble_gatts_create_service] returns. *)
Definition executeCreate (this : t) (gatts_if : N) (errRc : esp_err_t) : M t :=
  let this := set_m_gatts_if this gatts_if in
  let this := set_m_srvc_id this
    {| srvc_id := {| id_uuid := getNative (m_uuid this); id_inst_id := 0 |};
       srvc_is_primary := srvc_is_primary (m_srvc_id this) |} in
  do this <- take this "executeCreate";
  emit (esp_ble_gatts_create_service (m_gatts_if this) (m_srvc_id this) 10) ;;
  if negb (errRc =? ESP_OK)%Z then
    emit (ESP_LOGE LOG_TAG "esp_ble_gatts_create_service: rc=%d %s") ;;
    ret this
  else ret this.

(** [addCharacteristic]: [chars] is the heap of characteristic objects. *)
Definition addCharacteristic (this : t) (chars : gmap N BLECharacteristic.t)
    (pCharacteristic : ptr) : M t :=
  do c <- deref chars pCharacteristic;
  match BLECharacteristicMap.getByUUID (m_characteristicMap this) (BLECharacteristic.getUUID c) with
  | Some _ =>
      emit (ESP_LOGE LOG_TAG
        "<< Attempt to add a characteristic but we already have one with this UUID") ;;
      ret this
  | None =>
      match pCharacteristic with
      | Some a =>
          ret (set_m_characteristicMap this
                 (BLECharacteristicMap.setByUUID (m_characteristicMap this)
                    (BLECharacteristic.getUUID c) a))
      | None => fault
      end
  end.

(** The body of [case ESP_GATTS_CREATE_EVT]. *)
Definition case_ESP_GATTS_CREATE_EVT (this : t) (param : esp_ble_gatts_cb_param_t) : M t :=
  if equals (getUUID this)
       (BLEUUID_of_native (id_uuid (srvc_id (create_service_id (create param)))))
  then give (setHandle this (create_service_handle (create param)))
  else ret this.

(** [handleGATTServerEvent].  The [ESP_GATTS_ADD_CHAR_EVT] case ends in
    [break] only inside [if (m_handle == param->add_char.service_handle)];
    otherwise control falls through into [case ESP_GATTS_CREATE_EVT]. *)
Definition handleGATTServerEvent (this : t) (chars : gmap N BLECharacteristic.t)
    (event : esp_gatts_cb_event_t) (gatts_if : N) (param : esp_ble_gatts_cb_param_t)
    : M (t * gmap N BLECharacteristic.t) :=
  do r <-
    match event with
    | ESP_GATTS_ADD_CHAR_EVT =>
        if (m_handle this =? add_char_service_handle (add_char param)) then
          let pCharacteristic :=
            getCharacteristic this (BLEUUID_of_native (add_char_char_uuid (add_char param))) in
          match pCharacteristic with
          | None =>
              emit (ESP_LOGE LOG_TAG
                "Expected to find characteristic with UUID: %s, but didnt!") ;;
              dump this ;;
              do this <- give this;
              ret (this, chars)
          | Some a =>
              do c <- deref chars pCharacteristic;
              let chars :=
                <[a := BLECharacteristic.setHandle c (add_char_attr_handle (add_char param))]> chars in
              let this := set_m_characteristicMap this
                (BLECharacteristicMap.setByHandle (m_characteristicMap this)
                   (add_char_attr_handle (add_char param)) a) in
              do this <- give this;
              ret (this, chars)
          end
        else
          do this <- case_ESP_GATTS_CREATE_EVT this param;
          ret (this, chars)
    | ESP_GATTS_CREATE_EVT =>
        do this <- case_ESP_GATTS_CREATE_EVT this param;
        ret (this, chars)
    | _ => ret (this, chars)
    end;
  emit (BLECharacteristicMap_handleGATTServerEvent event gatts_if param) ;;
  ret r.

(** [toString]: [BLEUUID_toString] is [BLEUUID::toString], which is not
    among the sources. *)
Definition toString (BLEUUID_toString : N -> string) (this : t) : string :=
  String.append "UUID: "
    (String.append (BLEUUID_toString (getUUID this))
       (String.append ", handle: 0x" (setw 2 "0" (hex (getHandle this))))).

End BLEService.

(** The objects a descriptor can reach through its back-reference. *)
Record Heap := {
  characteristics : gmap N BLECharacteristic.t;
  services : gmap N BLEService.t
}.

(** ** BLEDescriptor *)

Module BLEDescriptor.

Definition LOG_TAG : string := "BLEDescriptor".

Record t := {
  m_bleUUID : BLEUUID;
  m_value : esp_attr_value_t;
  m_handle : N;
  m_pCharacteristic : ptr
}.

Definition set_m_value (this : t) (v : esp_attr_value_t) : t :=
  {| m_bleUUID := m_bleUUID this; m_value := v; m_handle := m_handle this;
     m_pCharacteristic := m_pCharacteristic this |}.

Definition set_m_handle (this : t) (v : N) : t :=
  {| m_bleUUID := m_bleUUID this; m_value := m_value this; m_handle := v;
     m_pCharacteristic := m_pCharacteristic this |}.

Definition set_m_pCharacteristic (this : t) (v : ptr) : t :=
  {| m_bleUUID := m_bleUUID this; m_value := m_value this; m_handle := m_handle this;
     m_pCharacteristic := v |}.

(** Short-circuit [&&] of C++ on conditions that may dereference. *)
Definition and_then (a b : M bool) : M bool :=
  do x <- a; if x then b else ret false.

Section Config.

(** The vendor constant [ESP_GATT_MAX_ATTR_LEN], the fixed maximum length of
    an attribute value. *)
Variable ESP_GATT_MAX_ATTR_LEN : N.

(** Whether debug logging is compiled in ([LOG_LOCAL_LEVEL >=
    ESP_LOG_DEBUG]).  [ESP_LOGD] is a vendor macro: its arguments are
    evaluated exactly when debug logging is compiled in.  Debug output itself
    is not an effect of the model. *)
Variable debug_logging : bool.

Definition ESP_LOGD {A} (args : M A) : M unit :=
  if debug_logging then args ;; ret tt else ret tt.

(** The constructor.  [block] is the memory [malloc(ESP_GATT_MAX_ATTR_LEN)]
    returned, with whatever it holds. *)
Definition BLEDescriptor (uuid : BLEUUID) (block : list byte) : t :=
  {| m_bleUUID := uuid;
     m_value := {| attr_max_len := to_uint16 ESP_GATT_MAX_ATTR_LEN;
                   attr_len := 0;
                   attr_value := block |};
     m_handle := 0;
     m_pCharacteristic := None |}.

Definition getUUID (this : t) : BLEUUID := m_bleUUID this.
Definition getValue (this : t) : list byte := attr_value (m_value this).
Definition getLength (this : t) : N := attr_len (m_value this).
Definition getHandle (this : t) : N := m_handle this.

Definition setHandle (this : t) (handle : N) : t := set_m_handle this handle.

(** [setValue(uint8_t* data, size_t length)]: [data] is the block the
    pointer refers to. *)
Definition setValue (this : t) (data : list byte) (length : N) : M t :=
  if (ESP_GATT_MAX_ATTR_LEN <? length) then
    emit (ESP_LOGE LOG_TAG "Size %d too large, must be no bigger than %d") ;;
    ret this
  else
    do buf <- memcpy (attr_value (m_value this)) data length;
    ret (set_m_value this
           {| attr_max_len := attr_max_len (m_value this);
              attr_len := to_uint16 length;
              attr_value := buf |}).

(** [setValue(std::string value)]. *)
Definition setValue_string (this : t) (value : list byte) : M t :=
  setValue this value (N.of_nat (List.length value)).

(** [executeCreate]: [errRc] is what [esp_ble_gatts_add_char_descr]
    returns. *)
Definition executeCreate (this : t) (heap : Heap) (pCharacteristic : ptr)
    (errRc : esp_err_t) : M t :=
  if negb (m_handle this =? 0) then
    emit (ESP_LOGE LOG_TAG "Descriptor already has a handle.") ;;
    ret this
  else
    let this := set_m_pCharacteristic this pCharacteristic in
    do c <- deref (characteristics heap) pCharacteristic;
    do s <- deref (services heap) (BLECharacteristic.getService c);
    emit (esp_ble_gatts_add_char_descr (BLEService.getHandle s) (getNative (getUUID this))
            [ESP_GATT_PERM_READ; ESP_GATT_PERM_WRITE] (m_value this)) ;;
    if negb (errRc =? ESP_OK)%Z then
      emit (ESP_LOGE LOG_TAG "<< esp_ble_gatts_add_char_descr: rc=%d %s") ;;
      ret this
    else ret this.

(** [m_pCharacteristic->getService()], dereferenced. *)
Definition owning_service (this : t) (heap : Heap) : M BLEService.t :=
  do c <- deref (characteristics heap) (m_pCharacteristic this);
  deref (services heap) (BLECharacteristic.getService c).

(** The condition of the [if] in [case ESP_GATTS_ADD_CHAR_DESCR_EVT]. *)
Definition add_char_descr_condition (this : t) (heap : Heap)
    (param : esp_ble_gatts_cb_param_t) : M bool :=
  and_then (ret (negb (ptr_eqb (m_pCharacteristic this) None)))
 (and_then (ret (equals (m_bleUUID this)
                   (BLEUUID_of_native (add_char_descr_char_uuid (add_char_descr param)))))
 (and_then (do s <- owning_service this heap;
            ret (BLEService.getHandle s =? add_char_descr_service_handle (add_char_descr param)))
           (do s <- owning_service this heap;
            ret (ptr_eqb (m_pCharacteristic this) (BLEService.getLastCreatedCharacteristic s))))).

(** The block copied into the response: [memcpy(rsp.attr_value.value,
    getValue(), rsp.attr_value.len)], into an array of
    [ESP_GATT_MAX_ATTR_LEN] bytes. *)
Definition make_rsp (this : t) (handle : N) : M esp_gatt_rsp_t :=
  let len := to_uint16 (getLength this) in
  if (len <=? N.of_nat (List.length (getValue this))) && (len <=? ESP_GATT_MAX_ATTR_LEN) then
    ret {| rsp_value := firstn (N.to_nat len) (getValue this);
           rsp_handle := handle;
           rsp_offset := 0;
           rsp_len := len;
           rsp_auth_req := ESP_GATT_AUTH_REQ_NONE |}
  else fault.

(** [handleGATTServerEvent]: [errRc] is what [esp_ble_gatts_send_response]
    returns, when the call is made. *)
Definition handleGATTServerEvent (this : t) (heap : Heap)
    (event : esp_gatts_cb_event_t) (gatts_if : N) (param : esp_ble_gatts_cb_param_t)
    (errRc : esp_err_t) : M t :=
  match event with
  | ESP_GATTS_ADD_CHAR_DESCR_EVT =>
      ESP_LOGD (ret (m_pCharacteristic this)) ;;
      ESP_LOGD (ret (equals (m_bleUUID this)
                  (BLEUUID_of_native (add_char_descr_char_uuid (add_char_descr param))))) ;;
      ESP_LOGD (do s <- owning_service this heap; ret (BLEService.getHandle s)) ;;
      ESP_LOGD (do s <- owning_service this heap;
                ret (BLEService.getLastCreatedCharacteristic s)) ;;
      do b <- add_char_descr_condition this heap param;
      if b then ret (setHandle this (add_char_descr_attr_handle (add_char_descr param)))
      else ret this
  | ESP_GATTS_WRITE_EVT =>
      if (write_handle (write param) =? m_handle this) then
        do this <- setValue this (write_value (write param)) (write_len (write param));
        do rsp <- make_rsp this (m_handle this);
        emit (esp_ble_gatts_send_response gatts_if (write_conn_id (write param))
                (write_trans_id (write param)) ESP_GATT_OK rsp) ;;
        if negb (errRc =? ESP_OK)%Z then
          emit (ESP_LOGE LOG_TAG "esp_ble_gatts_send_response: rc=%d %s") ;;
          ret this
        else ret this
      else ret this
  | ESP_GATTS_READ_EVT =>
      if (read_handle (read param) =? m_handle this) then
        if read_need_rsp (read param) then
          do rsp <- make_rsp this (read_handle (read param));
          emit (esp_ble_gatts_send_response gatts_if (read_conn_id (read param))
                  (read_trans_id (read param)) ESP_GATT_OK rsp) ;;
          if negb (errRc =? ESP_OK)%Z then
            emit (ESP_LOGE LOG_TAG "esp_ble_gatts_send_response: rc=%d %s") ;;
            ret this
          else ret this
        else ret this
      else ret this
  | _ => ret this
  end.

End Config.

(** [toString]: [BLEUUID_toString] is [BLEUUID::toString], which is not
    among the sources. *)
Definition toString (BLEUUID_toString : N -> string) (this : t) : string :=
  String.append "UUID: "
    (String.append (String.append (BLEUUID_toString (m_bleUUID this)) ", handle: 0x")
       (setw 2 "0" (hex (m_handle this)))).

End BLEDescriptor.

(** ** Notions of the specification *)

(** "An owning characteristic is set, the event's UUID matches this
    descriptor's UUID, the event's service handle matches the owning
    characteristic's service handle, and this descriptor's owning
    characteristic is the most-recently-created characteristic of that
    service." *)
Definition fully_qualifying (this : BLEDescriptor.t) (heap : Heap)
    (param : esp_ble_gatts_cb_param_t) : bool :=
  match BLEDescriptor.m_pCharacteristic this with
  | None => false
  | Some owner =>
      match characteristics heap !! owner with
      | None => false
      | Some c =>
          match BLECharacteristic.getService c with
          | None => false
          | Some sa =>
              match services heap !! sa with
              | None => false
              | Some s =>
                  equals (BLEDescriptor.m_bleUUID this)
                         (add_char_descr_char_uuid (add_char_descr param))
                  && (add_char_descr_service_handle (add_char_descr param)
                        =? BLEService.getHandle s)
                  && ptr_eqb (BLEService.getLastCreatedCharacteristic s) (Some owner)
              end
          end
      end
  end.

(** The buffer of a descriptor is the block of [ESP_GATT_MAX_ATTR_LEN] bytes
    its constructor allocated, and the stored length lies within it. *)
Definition well_formed (MAX : N) (this : BLEDescriptor.t) : Prop :=
  N.of_nat (List.length (BLEDescriptor.getValue this)) = MAX /\
  BLEDescriptor.getLength this <= MAX.

Definition is_send_response (e : effect) : bool :=
  match e with
  | esp_ble_gatts_send_response _ _ _ _ _ => true
  | _ => false
  end.

Definition sends_response (trace : list effect) : bool :=
  existsb is_send_response trace.

(** *** The life of a descriptor: operations delivered one after the other,
    each in the heap of its moment *)

Inductive descriptor_operation :=
| call_setValue (data : list byte) (length : N)
| call_setHandle (handle : N)
| call_executeCreate (pCharacteristic : ptr) (errRc : esp_err_t)
| deliver (event : esp_gatts_cb_event_t) (gatts_if : N)
    (param : esp_ble_gatts_cb_param_t) (errRc : esp_err_t).

Definition descriptor_step (MAX : N) (debug_logging : bool)
    (this : BLEDescriptor.t) (heap : Heap) (op : descriptor_operation)
    : M BLEDescriptor.t :=
  match op with
  | call_setValue data length => BLEDescriptor.setValue MAX this data length
  | call_setHandle handle => ret (BLEDescriptor.setHandle this handle)
  | call_executeCreate pCharacteristic errRc =>
      BLEDescriptor.executeCreate this heap pCharacteristic errRc
  | deliver event gatts_if param errRc =>
      BLEDescriptor.handleGATTServerEvent MAX debug_logging this heap event gatts_if param errRc
  end.

Fixpoint descriptor_run (MAX : N) (debug_logging : bool)
    (this : BLEDescriptor.t) (ops : list (Heap * descriptor_operation))
    : M BLEDescriptor.t :=
  match ops with
  | [] => ret this
  | (heap, op) :: rest =>
      do this <- descriptor_step MAX debug_logging this heap op;
      descriptor_run MAX debug_logging this rest
  end.

(** The handle an operation assigns, if it is one that assigns: a
    fully-qualifying descriptor-added event, or a call of [setHandle]. *)
Definition assignment (this : BLEDescriptor.t) (heap : Heap)
    (op : descriptor_operation) : option N :=
  match op with
  | call_setHandle handle => Some handle
  | deliver ESP_GATTS_ADD_CHAR_DESCR_EVT _ param _ =>
      if fully_qualifying this heap param
      then Some (add_char_descr_attr_handle (add_char_descr param))
      else None
  | _ => None
  end.

(** The handle assigned last along a run, [h0] when none was. *)
Fixpoint last_assigned (MAX : N) (debug_logging : bool)
    (this : BLEDescriptor.t) (ops : list (Heap * descriptor_operation)) (h0 : N) : N :=
  match ops with
  | [] => h0
  | (heap, op) :: rest =>
      let h1 := default h0 (assignment this heap op) in
      match descriptor_step MAX debug_logging this heap op with
      | Ok (this', _) => last_assigned MAX debug_logging this' rest h1
      | _ => h1
      end
  end.

(** *** The life of a service *)

Inductive service_operation :=
| call_addCharacteristic (pCharacteristic : ptr)
| call_service_executeCreate (gatts_if : N) (errRc : esp_err_t)
| deliver_to_service (event : esp_gatts_cb_event_t) (gatts_if : N)
    (param : esp_ble_gatts_cb_param_t).

Definition service_step (st : BLEService.t * gmap N BLECharacteristic.t)
    (op : service_operation) : M (BLEService.t * gmap N BLECharacteristic.t) :=
  match op with
  | call_addCharacteristic p =>
      do this <- BLEService.addCharacteristic (fst st) (snd st) p;
      ret (this, snd st)
  | call_service_executeCreate gatts_if errRc =>
      do this <- BLEService.executeCreate (fst st) gatts_if errRc;
      ret (this, snd st)
  | deliver_to_service event gatts_if param =>
      BLEService.handleGATTServerEvent (fst st) (snd st) event gatts_if param
  end.

Fixpoint service_run (st : BLEService.t * gmap N BLECharacteristic.t)
    (ops : list service_operation) : M (BLEService.t * gmap N BLECharacteristic.t) :=
  match ops with
  | [] => ret st
  | op :: rest => do st <- service_step st op; service_run st rest
  end.

(** Every entry of the UUID-keyed map points to a characteristic with that
    UUID. *)
Definition keyed_by_uuid (this : BLEService.t) (chars : gmap N BLECharacteristic.t) : Prop :=
  forall (uuid : N) (a : N),
    BLECharacteristicMap.m_uuidMap (BLEService.m_characteristicMap this) !! uuid = Some a ->
    exists c, chars !! a = Some c /\ BLECharacteristic.getUUID c = uuid.

(** The number of characteristics of a service. *)
Definition characteristic_count (this : BLEService.t) : nat :=
  size (BLECharacteristicMap.m_uuidMap (BLEService.m_characteristicMap this)).

(** ** A scenario

    The service [S1] (handle 0x28) with two characteristics [U1] and [U2],
    each with a descriptor of UUID [UD]. *)

Definition S1 : N := 6159.
Definition U1 : N := 10777.
Definition U2 : N := 10778.
Definition UD : N := 10498.

Definition no_param : esp_ble_gatts_cb_param_t :=
  {| read := {| read_conn_id := 0; read_trans_id := 0; read_handle := 0; read_offset := 0;
                read_is_long := false; read_need_rsp := false |};
     write := {| write_conn_id := 0; write_trans_id := 0; write_handle := 0;
                 write_offset := 0; write_need_rsp := false; write_is_prep := false;
                 write_len := 0; write_value := [] |};
     create := {| create_status := 0; create_service_handle := 0;
                  create_service_id := {| srvc_id := {| id_uuid := 0; id_inst_id := 0 |};
                                          srvc_is_primary := false |} |};
     add_char := {| add_char_status := 0; add_char_attr_handle := 0;
                    add_char_service_handle := 0; add_char_char_uuid := 0 |};
     add_char_descr := {| add_char_descr_status := 0; add_char_descr_attr_handle := 0;
                          add_char_descr_service_handle := 0;
                          add_char_descr_char_uuid := 0 |} |}.

Definition with_read (r : gatts_read_evt_param) : esp_ble_gatts_cb_param_t :=
  {| read := r; write := write no_param; create := create no_param;
     add_char := add_char no_param; add_char_descr := add_char_descr no_param |}.

Definition with_write (w : gatts_write_evt_param) : esp_ble_gatts_cb_param_t :=
  {| read := read no_param; write := w; create := create no_param;
     add_char := add_char no_param; add_char_descr := add_char_descr no_param |}.

Definition with_add_char_descr (d : gatts_add_char_descr_evt_param) : esp_ble_gatts_cb_param_t :=
  {| read := read no_param; write := write no_param; create := create no_param;
     add_char := add_char no_param; add_char_descr := d |}.

(** descriptor-added(handle, serviceHandle = 0x28, charUUID = UD) *)
Definition descriptor_added (attr_handle : N) : esp_ble_gatts_cb_param_t :=
  with_add_char_descr
    {| add_char_descr_status := ESP_GATT_OK; add_char_descr_attr_handle := attr_handle;
       add_char_descr_service_handle := 40; add_char_descr_char_uuid := UD |}.

Definition scenario_service (last : ptr) : BLEService.t :=
  {| BLEService.m_uuid := S1;
     BLEService.m_handle := 40;
     BLEService.m_gatts_if := 3;
     BLEService.m_srvc_id := {| srvc_id := {| id_uuid := S1; id_inst_id := 0 |};
                                srvc_is_primary := true |};
     BLEService.m_serializeMutex := false;
     BLEService.m_lastCreatedCharacteristic := last;
     BLEService.m_characteristicMap :=
       {| BLECharacteristicMap.m_uuidMap := <[U1 := 1]> (<[U2 := 2]> ∅);
          BLECharacteristicMap.m_handleMap := <[42 := 1]> (<[44 := 2]> ∅) |} |}.

Definition scenario_characteristics : gmap N BLECharacteristic.t :=
  <[1 := {| BLECharacteristic.m_bleUUID := U1; BLECharacteristic.m_handle := 42;
            BLECharacteristic.m_pService := Some 10 |}]>
 (<[2 := {| BLECharacteristic.m_bleUUID := U2; BLECharacteristic.m_handle := 44;
            BLECharacteristic.m_pService := Some 10 |}]> ∅).

(** The heap when the characteristic at [last] is the last created one. *)
Definition scenario_heap (last : ptr) : Heap :=
  {| characteristics := scenario_characteristics;
     services := <[10 := scenario_service last]> ∅ |}.

Definition zeros (n : nat) : list byte := repeat x00 n.

(** A descriptor of UUID [UD] as constructed, and as owned by the
    characteristic at [owner]. *)
Definition fresh_descriptor : BLEDescriptor.t :=
  BLEDescriptor.BLEDescriptor 600 UD (zeros 600).

Definition descriptor_of (owner : N) : BLEDescriptor.t :=
  BLEDescriptor.set_m_pCharacteristic fresh_descriptor (Some owner).

(** A service of UUID 0x0010 after [executeCreate], while its creation event
    is awaited: the lock is held and the handle is still 0. *)
Definition service_awaiting_creation : BLEService.t :=
  {| BLEService.m_uuid := 16;
     BLEService.m_handle := 0;
     BLEService.m_gatts_if := 3;
     BLEService.m_srvc_id := {| srvc_id := {| id_uuid := 16; id_inst_id := 0 |};
                                srvc_is_primary := true |};
     BLEService.m_serializeMutex := true;
     BLEService.m_lastCreatedCharacteristic := None;
     BLEService.m_characteristicMap := BLECharacteristicMap.empty |}.

(** A characteristic-added event of another service: service handle 2,
    attribute handle 42, and a 128-bit characteristic UUID.  Which values the
    member [create] shows for it depends on the layout of the union.  Under
    the packed layout of the vendor header, [create.service_handle] lies on
    the bytes of [add_char.attr_handle], the length of
    [create.service_id.id.uuid] on the bytes of [add_char.service_handle],
    and its value starts on the length of [add_char.char_uuid]: the member
    [create] shows the service handle 42 and the 16-bit UUID 0x0010. *)
Definition foreign_characteristic_added : esp_ble_gatts_cb_param_t :=
  {| read := read no_param;
     write := write no_param;
     create := {| create_status := ESP_GATT_OK; create_service_handle := 42;
                  create_service_id := {| srvc_id := {| id_uuid := 16; id_inst_id := 0 |};
                                          srvc_is_primary := false |} |};
     add_char := {| add_char_status := ESP_GATT_OK; add_char_attr_handle := 42;
                    add_char_service_handle := 2;
                    add_char_char_uuid := 4660 * 2 ^ 112 |};
     add_char_descr := add_char_descr no_param |}.

(** The life of a descriptor that receives two fully-qualifying
    descriptor-added events, with attribute handles 43 and 45. *)
Definition life_with_two_creation_events : list (Heap * descriptor_operation) :=
  [(scenario_heap (Some 1), call_executeCreate (Some 1) ESP_OK);
   (scenario_heap (Some 1),
    deliver ESP_GATTS_ADD_CHAR_DESCR_EVT 3 (descriptor_added 43) ESP_OK);
   (scenario_heap (Some 1),
    deliver ESP_GATTS_ADD_CHAR_DESCR_EVT 3 (descriptor_added 45) ESP_OK)].

(** read(handle, connection 1, transaction 7, response requested) *)
Definition read_request (handle : N) : esp_ble_gatts_cb_param_t :=
  with_read {| read_conn_id := 1; read_trans_id := 7; read_handle := handle;
               read_offset := 0; read_is_long := false; read_need_rsp := true |}.

(** write(handle, connection 1, transaction 7, value) *)
Definition write_request (handle : N) (value : list byte) : esp_ble_gatts_cb_param_t :=
  with_write {| write_conn_id := 1; write_trans_id := 7; write_handle := handle;
                write_offset := 0; write_need_rsp := true; write_is_prep := false;
                write_len := N.of_nat (List.length value); write_value := value |}.

(** The service [S1] once created (handle 0x28), with its two
    characteristics registered and no handle assigned to them yet, holding
    the lock. *)
Definition created_service : BLEService.t :=
  {| BLEService.m_uuid := S1;
     BLEService.m_handle := 40;
     BLEService.m_gatts_if := 3;
     BLEService.m_srvc_id := {| srvc_id := {| id_uuid := S1; id_inst_id := 0 |};
                                srvc_is_primary := true |};
     BLEService.m_serializeMutex := true;
     BLEService.m_lastCreatedCharacteristic := Some 1;
     BLEService.m_characteristicMap :=
       {| BLECharacteristicMap.m_uuidMap := <[U1 := 1]> (<[U2 := 2]> ∅);
          BLECharacteristicMap.m_handleMap := ∅ |} |}.

(** The two characteristics before their handles are assigned, and a third
    object at address 3 that has the UUID [U1] as well. *)
Definition new_characteristics : gmap N BLECharacteristic.t :=
  <[1 := {| BLECharacteristic.m_bleUUID := U1; BLECharacteristic.m_handle := 0;
            BLECharacteristic.m_pService := Some 10 |}]>
 (<[2 := {| BLECharacteristic.m_bleUUID := U2; BLECharacteristic.m_handle := 0;
            BLECharacteristic.m_pService := Some 10 |}]>
 (<[3 := {| BLECharacteristic.m_bleUUID := U1; BLECharacteristic.m_handle := 0;
            BLECharacteristic.m_pService := None |}]> ∅)).

(** characteristic-added(handle, serviceHandle = 0x28, charUUID) *)
Definition characteristic_added (attr_handle uuid : N) : esp_ble_gatts_cb_param_t :=
  {| read := read no_param;
     write := write no_param;
     create := create no_param;
     add_char := {| add_char_status := ESP_GATT_OK; add_char_attr_handle := attr_handle;
                    add_char_service_handle := 40; add_char_char_uuid := uuid |};
     add_char_descr := add_char_descr no_param |}.

(** service-created(handle, serviceUUID) *)
Definition service_created (service_handle uuid : N) : esp_ble_gatts_cb_param_t :=
  {| read := read no_param;
     write := write no_param;
     create := {| create_status := ESP_GATT_OK; create_service_handle := service_handle;
                  create_service_id := {| srvc_id := {| id_uuid := uuid; id_inst_id := 0 |};
                                          srvc_is_primary := true |} |};
     add_char := add_char no_param;
     add_char_descr := add_char_descr no_param |}.

(** The descriptor under the characteristic at address 1, with handle 43,
    holding [value] at the front of its 600 bytes. *)
Definition descriptor_holding (value : list byte) : BLEDescriptor.t :=
  BLEDescriptor.set_m_value (BLEDescriptor.setHandle (descriptor_of 1) 43)
    {| attr_max_len := 600;
       attr_len := N.of_nat (List.length value);
       attr_value := value ++ zeros (600 - List.length value) |}.

(** The number a text of hexadecimal digits stands for. *)
Definition hex_value (text : string) : option N :=
  option_map N.of_hex_uint (NilEmpty.uint_of_string text).

(** Every entry of the handle-keyed map points to a characteristic that is
    registered under its UUID. *)
Definition indexed_by_handle (this : BLEService.t) (chars : gmap N BLECharacteristic.t) : Prop :=
  forall (handle : N) (a : N),
    BLECharacteristicMap.getByHandle (BLEService.m_characteristicMap this) handle = Some a ->
    exists c, chars !! a = Some c /\
              BLEService.getCharacteristic this (BLECharacteristic.getUUID c) = Some a.

(** * Properties *)

(** ** The monad *)

Lemma bind_Ok {A B} (m : M A) (f : A -> M B) (a : A) (t : list effect) :
  m = Ok (a, t) ->
  bind m f = match f a with
             | Ok (b, t') => Ok (b, t ++ t')
             | Fault => Fault
             | Blocked => Blocked
             end.
Proof. intros ->. reflexivity. Qed.

Lemma bind_ret_l {A B} (a : A) (f : A -> M B) : bind (ret a) f = f a.
Proof.
  unfold bind, ret. destruct (f a) as [[b t]| |]; reflexivity.
Qed.

Lemma bind_inv {A B} (m : M A) (f : A -> M B) (b : B) (t : list effect) :
  bind m f = Ok (b, t) ->
  exists a t1 t2, m = Ok (a, t1) /\ f a = Ok (b, t2) /\ t = t1 ++ t2.
Proof.
  unfold bind. destruct m as [[a t1]| |]; try discriminate.
  destruct (f a) as [[b' t2]| |] eqn:E; try discriminate.
  intros [= <- <-]. exists a, t1, t2. auto.
Qed.

Lemma ptr_eqb_eq (p q : option N) : ptr_eqb p q = true <-> p = q.
Proof.
  destruct p as [a|], q as [b|]; simpl; split; try congruence.
  - intros E%N.eqb_eq. congruence.
  - intros [= ->]. apply N.eqb_refl.
Qed.

Lemma to_uint16_small (n : N) : n < 2 ^ 16 -> to_uint16 n = n.
Proof. intros Hn. unfold to_uint16. apply N.mod_small, Hn. Qed.

Lemma memcpy_Ok (dst src : list byte) (n : N) :
  n <= N.of_nat (List.length src) ->
  n <= N.of_nat (List.length dst) ->
  memcpy dst src n = Ok (firstn (N.to_nat n) src ++ skipn (N.to_nat n) dst, []).
Proof.
  intros Hs Hd. unfold memcpy.
  apply N.leb_le in Hs. apply N.leb_le in Hd. rewrite Hs, Hd. reflexivity.
Qed.

Lemma memcpy_length (dst src : list byte) (n : N) :
  n <= N.of_nat (List.length src) ->
  n <= N.of_nat (List.length dst) ->
  List.length (firstn (N.to_nat n) src ++ skipn (N.to_nat n) dst) = List.length dst.
Proof.
  intros Hs Hd. rewrite List.length_app, List.length_firstn, List.length_skipn. lia.
Qed.

Lemma memcpy_prefix (dst src : list byte) (n : N) :
  n <= N.of_nat (List.length src) ->
  firstn (N.to_nat n) (firstn (N.to_nat n) src ++ skipn (N.to_nat n) dst)
  = firstn (N.to_nat n) src.
Proof.
  intros Hs.
  rewrite List.firstn_app, List.length_firstn.
  replace (N.to_nat n - Nat.min (N.to_nat n) (List.length src))%nat with 0%nat by lia.
  rewrite List.firstn_firstn, Nat.min_id. simpl. apply List.app_nil_r.
Qed.

(** ** BLEDescriptor: values *)

Section DescriptorValue.

Variable MAX : N.
Hypothesis MAX_fits : MAX < 2 ^ 16.

Lemma setValue_Ok (this : BLEDescriptor.t) (data : list byte) (length : N) :
  well_formed MAX this ->
  length <= MAX ->
  length <= N.of_nat (List.length data) ->
  BLEDescriptor.setValue MAX this data length
  = Ok (BLEDescriptor.set_m_value this
          {| attr_max_len := attr_max_len (BLEDescriptor.m_value this);
             attr_len := length;
             attr_value := firstn (N.to_nat length) data
                           ++ skipn (N.to_nat length) (BLEDescriptor.getValue this) |}, []).
Proof.
  intros [Hcap _] Hmax Hdata. unfold BLEDescriptor.setValue.
  assert ((MAX <? length) = false) as -> by (apply N.ltb_ge; exact Hmax).
  unfold BLEDescriptor.getValue in *.
  rewrite memcpy_Ok by lia. simpl.
  rewrite to_uint16_small by lia. reflexivity.
Qed.

Lemma setValue_rejects (this : BLEDescriptor.t) (data : list byte) (length : N) :
  MAX < length ->
  BLEDescriptor.setValue MAX this data length
  = Ok (this, [ESP_LOGE BLEDescriptor.LOG_TAG "Size %d too large, must be no bigger than %d"]).
Proof.
  intros Hlen. unfold BLEDescriptor.setValue.
  apply N.ltb_lt in Hlen. rewrite Hlen. reflexivity.
Qed.

Lemma setValue_well_formed (this this' : BLEDescriptor.t) (data : list byte)
    (length : N) (t : list effect) :
  well_formed MAX this ->
  BLEDescriptor.setValue MAX this data length = Ok (this', t) ->
  well_formed MAX this'.
Proof.
  intros [Hcap Hlen] E. unfold BLEDescriptor.setValue in E.
  destruct (MAX <? length) eqn:Hlt.
  - simpl in E. injection E as <- _. split; assumption.
  - apply N.ltb_ge in Hlt. unfold memcpy in E.
    destruct (_ && _) eqn:Hb; [|discriminate].
    apply andb_true_iff in Hb as [Hs%N.leb_le Hd%N.leb_le].
    simpl in E. injection E as <- _.
    unfold well_formed, BLEDescriptor.getValue, BLEDescriptor.getLength in *. simpl.
    rewrite memcpy_length by assumption.
    rewrite to_uint16_small by lia. split; assumption.
Qed.

(** C2.  A value of at most [ESP_GATT_MAX_ATTR_LEN] bytes is stored:
    afterwards [getLength] is the length written and [getValue] starts with
    exactly the bytes written.  A longer value is rejected: the call logs an
    error and leaves the descriptor, its buffer and its length as they
    were. *)
Theorem setValue_stores_or_rejects (this : BLEDescriptor.t) (data : list byte) (length : N) :
  (well_formed MAX this ->
   length <= N.of_nat (List.length data) ->
   length <= MAX ->
   exists this',
     BLEDescriptor.setValue MAX this data length = Ok (this', []) /\
     BLEDescriptor.getLength this' = length /\
     firstn (N.to_nat length) (BLEDescriptor.getValue this') = firstn (N.to_nat length) data /\
     (N.of_nat (List.length data) = length ->
      firstn (N.to_nat (BLEDescriptor.getLength this')) (BLEDescriptor.getValue this') = data)) /\
  (MAX < length ->
   exists e,
     BLEDescriptor.setValue MAX this data length = Ok (this, [ESP_LOGE BLEDescriptor.LOG_TAG e])).
Proof.
  split.
  - intros Hwf Hdata Hmax. eexists. split; [apply setValue_Ok; assumption|].
    unfold BLEDescriptor.getLength, BLEDescriptor.getValue. simpl.
    split; [reflexivity|].
    rewrite memcpy_prefix by assumption.
    split; [reflexivity|].
    intros <-. rewrite Nat2N.id. apply List.firstn_all.
  - intros Hlen. eexists. apply setValue_rejects, Hlen.
Qed.

End DescriptorValue.

(** ** BLEDescriptor: the descriptor-added event *)

Section DescriptorAdded.

Variable MAX : N.
Variable debug_logging : bool.

Variable this : BLEDescriptor.t.
Variable heap : Heap.
Variable gatts_if : N.
Variable param : esp_ble_gatts_cb_param_t.
Variable errRc : esp_err_t.

Let attr_handle := add_char_descr_attr_handle (add_char_descr param).

Let delivered (d : BLEDescriptor.t) : M BLEDescriptor.t :=
  BLEDescriptor.handleGATTServerEvent MAX debug_logging d heap
    ESP_GATTS_ADD_CHAR_DESCR_EVT gatts_if param errRc.

Lemma fully_qualifying_inv (d : BLEDescriptor.t) :
  fully_qualifying d heap param = true ->
  exists owner c sa s,
    BLEDescriptor.m_pCharacteristic d = Some owner /\
    characteristics heap !! owner = Some c /\
    BLECharacteristic.getService c = Some sa /\
    services heap !! sa = Some s /\
    equals (BLEDescriptor.m_bleUUID d) (add_char_descr_char_uuid (add_char_descr param)) = true /\
    add_char_descr_service_handle (add_char_descr param) = BLEService.getHandle s /\
    BLEService.getLastCreatedCharacteristic s = Some owner.
Proof.
  unfold fully_qualifying.
  destruct (BLEDescriptor.m_pCharacteristic d) as [owner|]; [|discriminate].
  destruct (characteristics heap !! owner) as [c|] eqn:Ec; [|discriminate].
  destruct (BLECharacteristic.getService c) as [sa|] eqn:Esa; [|discriminate].
  destruct (services heap !! sa) as [s|] eqn:Es; [|discriminate].
  intros [[Hu Hh%N.eqb_eq]%andb_true_iff Hl%ptr_eqb_eq]%andb_true_iff.
  exists owner, c, sa, s. auto 10.
Qed.

Lemma owning_service_Ok (d : BLEDescriptor.t) owner c sa s :
  BLEDescriptor.m_pCharacteristic d = Some owner ->
  characteristics heap !! owner = Some c ->
  BLECharacteristic.getService c = Some sa ->
  services heap !! sa = Some s ->
  BLEDescriptor.owning_service d heap = Ok (s, []).
Proof.
  intros Ho Ec Esa Es. unfold BLEDescriptor.owning_service, deref.
  rewrite Ho, Ec. rewrite bind_ret_l. rewrite Esa, Es. reflexivity.
Qed.

Lemma delivered_qualifying (d : BLEDescriptor.t) :
  fully_qualifying d heap param = true ->
  delivered d = Ok (BLEDescriptor.setHandle d attr_handle, []).
Proof.
  intros (owner & c & sa & s & Ho & Ec & Esa & Es & Hu & Hh & Hl)%fully_qualifying_inv.
  unfold delivered, BLEDescriptor.handleGATTServerEvent, BLEDescriptor.ESP_LOGD,
    BLEDescriptor.add_char_descr_condition, BLEDescriptor.and_then.
  rewrite (owning_service_Ok d owner c sa s) by assumption.
  unfold BLEUUID_of_native. rewrite Ho, Hu, Hh.
  destruct debug_logging; simpl; rewrite N.eqb_refl; simpl; rewrite Hl; simpl;
    rewrite N.eqb_refl; reflexivity.
Qed.

Lemma ptr_eqb_sym (p q : option N) : ptr_eqb p q = ptr_eqb q p.
Proof. destruct p, q; simpl; auto using N.eqb_sym. Qed.

Lemma owning_service_cases (d : BLEDescriptor.t) :
  BLEDescriptor.owning_service d heap = Fault \/
  exists owner c sa s,
    BLEDescriptor.m_pCharacteristic d = Some owner /\
    characteristics heap !! owner = Some c /\
    BLECharacteristic.getService c = Some sa /\
    services heap !! sa = Some s /\
    BLEDescriptor.owning_service d heap = Ok (s, []).
Proof.
  unfold BLEDescriptor.owning_service, deref.
  destruct (BLEDescriptor.m_pCharacteristic d) as [owner|]; [|left; reflexivity].
  destruct (characteristics heap !! owner) as [c|] eqn:Ec; [|left; reflexivity].
  rewrite bind_ret_l.
  destruct (BLECharacteristic.getService c) as [sa|] eqn:Esa; [|left; reflexivity].
  destruct (services heap !! sa) as [s|] eqn:Es; [|left; reflexivity].
  right. exists owner, c, sa, s. auto 10.
Qed.

(** The condition of the code computes the four conditions of the
    specification, when it does not fault. *)
Lemma add_char_descr_condition_value (d : BLEDescriptor.t) :
  BLEDescriptor.add_char_descr_condition d heap param
    = Ok (fully_qualifying d heap param, []) \/
  (BLEDescriptor.add_char_descr_condition d heap param = Fault /\
   fully_qualifying d heap param = false).
Proof.
  unfold BLEDescriptor.add_char_descr_condition, BLEDescriptor.and_then, BLEUUID_of_native.
  rewrite !bind_ret_l.
  destruct (BLEDescriptor.m_pCharacteristic d) as [owner|] eqn:Ho; simpl.
  2:{ left. unfold fully_qualifying. rewrite Ho. reflexivity. }
  destruct (equals _ _) eqn:Hu.
  2:{ left. unfold fully_qualifying. rewrite Ho, Hu.
      destruct (characteristics heap !! owner) as [c|]; [|reflexivity].
      destruct (BLECharacteristic.getService c) as [sa|]; [|reflexivity].
      destruct (services heap !! sa); reflexivity. }
  destruct (owning_service_cases d) as [E|(o & c & sa & s & Ho' & Ec & Esa & Es & E)].
  - right. rewrite E. split; [reflexivity|].
    unfold BLEDescriptor.owning_service, deref in E. rewrite Ho in E.
    unfold fully_qualifying. rewrite Ho.
    destruct (characteristics heap !! owner) as [c|]; [|reflexivity].
    rewrite bind_ret_l in E.
    destruct (BLECharacteristic.getService c) as [sa|]; [|reflexivity].
    destruct (services heap !! sa); [discriminate|reflexivity].
  - left. rewrite E. simpl.
    assert (o = owner) as -> by congruence.
    unfold fully_qualifying. rewrite Ho, Ec, Esa, Es, Hu. simpl.
    rewrite (N.eqb_sym (add_char_descr_service_handle _)).
    rewrite (ptr_eqb_sym (BLEService.getLastCreatedCharacteristic s)). simpl.
    destruct (BLEService.getHandle s =? _); reflexivity.
Qed.

Lemma ESP_LOGD_owning_service {A} (d : BLEDescriptor.t) (f : BLEService.t -> A) :
  BLEDescriptor.ESP_LOGD debug_logging
    (do s <- BLEDescriptor.owning_service d heap; ret (f s)) = Ok (tt, []) \/
  BLEDescriptor.ESP_LOGD debug_logging
    (do s <- BLEDescriptor.owning_service d heap; ret (f s)) = Fault.
Proof.
  unfold BLEDescriptor.ESP_LOGD. destruct debug_logging; [|left; reflexivity].
  destruct (owning_service_cases d) as [E|(o & c & sa & s & _ & _ & _ & _ & E)];
    rewrite E; [right|left]; reflexivity.
Qed.

Lemma delivered_cases (d : BLEDescriptor.t) :
  delivered d = Fault \/
  delivered d = Ok (if fully_qualifying d heap param
                    then BLEDescriptor.setHandle d attr_handle else d, []).
Proof.
  unfold delivered, BLEDescriptor.handleGATTServerEvent.
  assert (forall {A} (a : A), BLEDescriptor.ESP_LOGD debug_logging (ret a) = Ok (tt, [])) as Hret
    by (intros; unfold BLEDescriptor.ESP_LOGD; destruct debug_logging; reflexivity).
  rewrite !Hret. simpl.
  destruct (ESP_LOGD_owning_service d BLEService.getHandle) as [-> | ->]; [|left; reflexivity].
  destruct (ESP_LOGD_owning_service d BLEService.getLastCreatedCharacteristic) as [-> | ->];
    [|left; reflexivity].
  destruct (add_char_descr_condition_value d) as [-> | [-> _]]; [|left; reflexivity].
  right. simpl. destruct (fully_qualifying d heap param); reflexivity.
Qed.

Lemma delivered_not_qualifying (d : BLEDescriptor.t) :
  fully_qualifying d heap param = false ->
  delivered d = Ok (d, []) \/ delivered d = Fault.
Proof.
  intros Hq. destruct (delivered_cases d) as [E|E]; [right; exact E|left].
  rewrite E, Hq. reflexivity.
Qed.

(** C1.  A descriptor-added event assigns its attribute handle to the
    descriptor if and only if the four conditions hold: an owning
    characteristic is recorded, the event's UUID equals the descriptor's, the
    event's service handle equals the handle of the owning characteristic's
    service, and the owning characteristic is the one the service created
    last.  Of two descriptors with the same UUID under two characteristics of
    one service, the one under the last created characteristic adopts the
    handle and the other keeps handle 0. *)
Theorem descriptor_added_four_conditions :
  (fully_qualifying this heap param = true ->
   delivered this = Ok (BLEDescriptor.setHandle this attr_handle, [])) /\
  (fully_qualifying this heap param = false ->
   delivered this = Ok (this, []) \/ delivered this = Fault) /\
  (BLEDescriptor.getHandle this <> attr_handle ->
   ((exists this' t, delivered this = Ok (this', t) /\
                     BLEDescriptor.getHandle this' = attr_handle)
    <-> fully_qualifying this heap param = true)) /\
  (forall (other : BLEDescriptor.t) (owner owner' : N) (c c' : BLECharacteristic.t)
          (sa : N) (s : BLEService.t),
     BLEDescriptor.getUUID other = BLEDescriptor.getUUID this ->
     BLEDescriptor.getHandle other = 0 ->
     BLEDescriptor.m_pCharacteristic this = Some owner ->
     BLEDescriptor.m_pCharacteristic other = Some owner' ->
     owner <> owner' ->
     characteristics heap !! owner = Some c ->
     characteristics heap !! owner' = Some c' ->
     BLECharacteristic.getService c = Some sa ->
     BLECharacteristic.getService c' = Some sa ->
     services heap !! sa = Some s ->
     BLEService.getLastCreatedCharacteristic s = Some owner ->
     add_char_descr_char_uuid (add_char_descr param) = BLEDescriptor.getUUID this ->
     add_char_descr_service_handle (add_char_descr param) = BLEService.getHandle s ->
     delivered this = Ok (BLEDescriptor.setHandle this attr_handle, []) /\
     delivered other = Ok (other, []) /\
     BLEDescriptor.getHandle other = 0).
Proof.
  split; [apply delivered_qualifying|].
  split; [apply delivered_not_qualifying|].
  split.
  - intros Hne. split.
    + intros (this' & t & E & Hh).
      destruct (fully_qualifying this heap param) eqn:Hq; [reflexivity|].
      destruct (delivered_not_qualifying this Hq) as [E'|E']; rewrite E' in E;
        [|discriminate].
      injection E as <- _. contradiction.
    + intros Hq. exists (BLEDescriptor.setHandle this attr_handle), [].
      split; [apply delivered_qualifying, Hq|reflexivity].
  - intros other owner owner' c c' sa s Hu H0 Ho Ho' Hne Ec Ec' Esa Esa' Es Hl Heu Heh.
    unfold BLEDescriptor.getUUID in *.
    assert (fully_qualifying this heap param = true) as Hq.
    { unfold fully_qualifying. rewrite Ho, Ec, Esa, Es, Heu, Heh, Hl.
      unfold equals. simpl. rewrite !N.eqb_refl. reflexivity. }
    assert (fully_qualifying other heap param = false) as Hq'.
    { unfold fully_qualifying. rewrite Ho', Ec', Esa', Es, Hl. simpl.
      apply N.eqb_neq in Hne. rewrite Hne. apply andb_false_r. }
    split; [apply delivered_qualifying, Hq|].
    split; [|exact H0].
    destruct (delivered_cases other) as [E|E]; [|rewrite E, Hq'; reflexivity].
    exfalso. revert E. unfold delivered, BLEDescriptor.handleGATTServerEvent,
      BLEDescriptor.ESP_LOGD, BLEDescriptor.add_char_descr_condition, BLEDescriptor.and_then.
    rewrite (owning_service_Ok other owner' c' sa s) by assumption.
    destruct debug_logging; simpl;
      repeat match goal with
             | |- context [if ?b then _ else _] => destruct b; simpl
             end; discriminate.
Qed.

End DescriptorAdded.

(** ** BLEDescriptor: a descriptor-added event before [executeCreate] *)

Lemma descriptor_added_null_owner_without_debug (MAX : N) (this : BLEDescriptor.t)
    (heap : Heap) (gatts_if : N) (param : esp_ble_gatts_cb_param_t) (errRc : esp_err_t) :
  BLEDescriptor.m_pCharacteristic this = None ->
  BLEDescriptor.handleGATTServerEvent MAX false this heap
    ESP_GATTS_ADD_CHAR_DESCR_EVT gatts_if param errRc = Ok (this, []).
Proof.
  intros Ho. unfold BLEDescriptor.handleGATTServerEvent, BLEDescriptor.ESP_LOGD,
    BLEDescriptor.add_char_descr_condition, BLEDescriptor.and_then.
  rewrite Ho. reflexivity.
Qed.

Lemma descriptor_added_null_owner_with_debug (MAX : N) (this : BLEDescriptor.t)
    (heap : Heap) (gatts_if : N) (param : esp_ble_gatts_cb_param_t) (errRc : esp_err_t) :
  BLEDescriptor.m_pCharacteristic this = None ->
  BLEDescriptor.handleGATTServerEvent MAX true this heap
    ESP_GATTS_ADD_CHAR_DESCR_EVT gatts_if param errRc = Fault.
Proof.
  intros Ho. unfold BLEDescriptor.handleGATTServerEvent, BLEDescriptor.ESP_LOGD,
    BLEDescriptor.owning_service, deref.
  rewrite Ho. reflexivity.
Qed.

(** C10.  A descriptor-added event delivered to a descriptor that has no
    owning characteristic yet, as after construction.  The guarded [if] tests
    the back-reference first and leaves the descriptor as it is; but the
    [ESP_LOGD] statements in front of it take
    [m_pCharacteristic->getService()] as arguments, so with debug logging
    compiled in the handler dereferences the null back-reference before it
    reaches the guard. *)
Theorem descriptor_added_null_owner (MAX : N) (this : BLEDescriptor.t)
    (heap : Heap) (gatts_if : N) (param : esp_ble_gatts_cb_param_t) (errRc : esp_err_t) :
  BLEDescriptor.m_pCharacteristic this = None ->
  BLEDescriptor.handleGATTServerEvent MAX true this heap
    ESP_GATTS_ADD_CHAR_DESCR_EVT gatts_if param errRc = Fault /\
  BLEDescriptor.handleGATTServerEvent MAX false this heap
    ESP_GATTS_ADD_CHAR_DESCR_EVT gatts_if param errRc = Ok (this, []).
Proof.
  intros Ho. split.
  - apply descriptor_added_null_owner_with_debug, Ho.
  - apply descriptor_added_null_owner_without_debug, Ho.
Qed.

(** ** BLEDescriptor: what each operation leaves alone *)

Lemma setValue_frame (MAX : N) (this this' : BLEDescriptor.t) (data : list byte)
    (length : N) (t : list effect) :
  BLEDescriptor.setValue MAX this data length = Ok (this', t) ->
  BLEDescriptor.m_handle this' = BLEDescriptor.m_handle this /\
  BLEDescriptor.m_pCharacteristic this' = BLEDescriptor.m_pCharacteristic this /\
  BLEDescriptor.m_bleUUID this' = BLEDescriptor.m_bleUUID this.
Proof.
  unfold BLEDescriptor.setValue. destruct (MAX <? length).
  - simpl. intros [= <- _]. auto.
  - intros (buf & t1 & t2 & _ & [= <- _] & _)%bind_inv. auto.
Qed.

Lemma executeCreate_frame (this this' : BLEDescriptor.t) (heap : Heap)
    (pCharacteristic : option N) (errRc : esp_err_t) (t : list effect) :
  BLEDescriptor.executeCreate this heap pCharacteristic errRc = Ok (this', t) ->
  BLEDescriptor.m_handle this' = BLEDescriptor.m_handle this.
Proof.
  unfold BLEDescriptor.executeCreate.
  destruct (negb (BLEDescriptor.m_handle this =? 0)).
  - simpl. intros [= <- _]. reflexivity.
  - intros (c & t1 & t2 & _ & (s & t3 & t4 & _ & E & _)%bind_inv & _)%bind_inv.
    destruct (negb (errRc =? ESP_OK)%Z); simpl in E; injection E as <- _; reflexivity.
Qed.

Lemma respond_frame (MAX : N) (this this' : BLEDescriptor.t) (handle gatts_if conn_id trans_id : N)
    (errRc : esp_err_t) (t : list effect) :
  (do rsp <- BLEDescriptor.make_rsp MAX this handle;
   emit (esp_ble_gatts_send_response gatts_if conn_id trans_id ESP_GATT_OK rsp) ;;
   if negb (errRc =? ESP_OK)%Z then
     emit (ESP_LOGE BLEDescriptor.LOG_TAG "esp_ble_gatts_send_response: rc=%d %s") ;;
     ret this
   else ret this) = Ok (this', t) ->
  this' = this.
Proof.
  intros (rsp & t1 & t2 & _ & E & _)%bind_inv.
  destruct (negb (errRc =? ESP_OK)%Z); simpl in E; injection E as <- _; reflexivity.
Qed.

Lemma handleGATTServerEvent_other_events_keep_handle (MAX : N) (debug_logging : bool)
    (this this' : BLEDescriptor.t) (heap : Heap) (event : esp_gatts_cb_event_t)
    (gatts_if : N) (param : esp_ble_gatts_cb_param_t) (errRc : esp_err_t) (t : list effect) :
  event <> ESP_GATTS_ADD_CHAR_DESCR_EVT ->
  BLEDescriptor.handleGATTServerEvent MAX debug_logging this heap event gatts_if param errRc
    = Ok (this', t) ->
  BLEDescriptor.m_handle this' = BLEDescriptor.m_handle this.
Proof.
  intros Hev. unfold BLEDescriptor.handleGATTServerEvent.
  destruct event; try contradiction.
  - destruct (_ =? _); [|intros [= <- _]; reflexivity].
    destruct (read_need_rsp _); [|intros [= <- _]; reflexivity].
    intros ->%respond_frame. reflexivity.
  - destruct (_ =? _); [|intros [= <- _]; reflexivity].
    intros (d & t1 & t2 & Hset%setValue_frame & ->%respond_frame & _)%bind_inv.
    apply Hset.
  - intros [= <- _]. reflexivity.
  - intros [= <- _]. reflexivity.
  - intros [= <- _]. reflexivity.
Qed.

(** ** BLEDescriptor: the handle over the life of a descriptor *)

Section DescriptorHandle.

Variable MAX : N.
Variable debug_logging : bool.

Lemma descriptor_step_handle (this this' : BLEDescriptor.t) (heap : Heap)
    (op : descriptor_operation) (t : list effect) :
  descriptor_step MAX debug_logging this heap op = Ok (this', t) ->
  BLEDescriptor.getHandle this'
  = default (BLEDescriptor.getHandle this) (assignment this heap op).
Proof.
  unfold BLEDescriptor.getHandle. destruct op as [data len|h|p rc|event gatts_if param rc]; simpl.
  - intros E%setValue_frame. apply E.
  - intros [= <- _]. reflexivity.
  - apply executeCreate_frame.
  - intros E.
    assert (event = ESP_GATTS_ADD_CHAR_DESCR_EVT \/ event <> ESP_GATTS_ADD_CHAR_DESCR_EVT)
      as [->|Hev] by (destruct event; (left; reflexivity) || (right; discriminate)).
    + destruct (delivered_cases MAX debug_logging heap gatts_if param rc this) as [E'|E'];
        rewrite E' in E; [discriminate|].
      injection E as <- _. destruct (fully_qualifying this heap param); reflexivity.
    + rewrite (handleGATTServerEvent_other_events_keep_handle _ _ _ _ _ _ _ _ _ _ Hev E).
      destruct event; try reflexivity. contradiction.
Qed.

Lemma descriptor_run_handle (ops : list (Heap * descriptor_operation)) :
  forall (this this' : BLEDescriptor.t) (t : list effect),
    descriptor_run MAX debug_logging this ops = Ok (this', t) ->
    BLEDescriptor.getHandle this'
    = last_assigned MAX debug_logging this ops (BLEDescriptor.getHandle this).
Proof.
  induction ops as [|[heap op] rest IH]; intros this this' t; simpl.
  - intros [= <- _]. reflexivity.
  - intros (d & t1 & t2 & Hstep & Hrun & _)%bind_inv.
    rewrite Hstep. rewrite (IH _ _ _ Hrun).
    rewrite (descriptor_step_handle _ _ _ _ _ Hstep). reflexivity.
Qed.

(** C3, as the code has it.  [getHandle] is 0 on construction.  An operation
    changes the handle only if it is a fully-qualifying descriptor-added
    event or a call of [setHandle], and then the handle becomes the one that
    operation carries, whether or not a handle was assigned before.  So at
    the end of every run from construction the handle is the one assigned
    last, and 0 if none was. *)
Theorem handle_is_the_last_assigned :
  (forall (uuid : N) (block : list byte),
     BLEDescriptor.getHandle (BLEDescriptor.BLEDescriptor MAX uuid block) = 0) /\
  (forall (this this' : BLEDescriptor.t) (heap : Heap) (op : descriptor_operation)
          (t : list effect),
     descriptor_step MAX debug_logging this heap op = Ok (this', t) ->
     BLEDescriptor.getHandle this'
     = default (BLEDescriptor.getHandle this) (assignment this heap op)) /\
  (forall (uuid : N) (block : list byte) (ops : list (Heap * descriptor_operation))
          (this' : BLEDescriptor.t) (t : list effect),
     descriptor_run MAX debug_logging (BLEDescriptor.BLEDescriptor MAX uuid block) ops
       = Ok (this', t) ->
     BLEDescriptor.getHandle this'
     = last_assigned MAX debug_logging (BLEDescriptor.BLEDescriptor MAX uuid block) ops 0).
Proof.
  split; [reflexivity|].
  split; [apply descriptor_step_handle|].
  intros uuid block ops this' t E. apply (descriptor_run_handle _ _ _ _ E).
Qed.

End DescriptorHandle.

(** ** BLEDescriptor: read and write events *)

Lemma to_uint16_le (n : N) : to_uint16 n <= n.
Proof. unfold to_uint16. apply N.Div0.mod_le. Qed.

Lemma make_rsp_Ok (MAX : N) (this : BLEDescriptor.t) (handle : N) :
  well_formed MAX this ->
  BLEDescriptor.make_rsp MAX this handle
  = Ok ({| rsp_value := firstn (N.to_nat (to_uint16 (BLEDescriptor.getLength this)))
                          (BLEDescriptor.getValue this);
           rsp_handle := handle;
           rsp_offset := 0;
           rsp_len := to_uint16 (BLEDescriptor.getLength this);
           rsp_auth_req := ESP_GATT_AUTH_REQ_NONE |}, []).
Proof.
  intros [Hcap Hlen]. unfold BLEDescriptor.make_rsp.
  pose proof (to_uint16_le (BLEDescriptor.getLength this)) as Hle.
  assert ((to_uint16 (BLEDescriptor.getLength this)
             <=? N.of_nat (List.length (BLEDescriptor.getValue this))) = true) as ->
    by (apply N.leb_le; lia).
  assert ((to_uint16 (BLEDescriptor.getLength this) <=? MAX) = true) as ->
    by (apply N.leb_le; lia).
  reflexivity.
Qed.

Section DescriptorReadWrite.

Variable MAX : N.
Variable debug_logging : bool.
Variable this : BLEDescriptor.t.
Variable heap : Heap.
Variable gatts_if : N.
Variable param : esp_ble_gatts_cb_param_t.

Let on_read (errRc : esp_err_t) : M BLEDescriptor.t :=
  BLEDescriptor.handleGATTServerEvent MAX debug_logging this heap
    ESP_GATTS_READ_EVT gatts_if param errRc.

Let on_write (errRc : esp_err_t) : M BLEDescriptor.t :=
  BLEDescriptor.handleGATTServerEvent MAX debug_logging this heap
    ESP_GATTS_WRITE_EVT gatts_if param errRc.

(** What the send call leaves in the trace: the error log line when the
    stack reports a failure, nothing otherwise. *)
Let logged (errRc : esp_err_t) : list effect :=
  if (errRc =? ESP_OK)%Z then []
  else [ESP_LOGE BLEDescriptor.LOG_TAG "esp_ble_gatts_send_response: rc=%d %s"].

(** C8, as the code has it.  A descriptor with handle 0 answers a read event
    exactly when the event's handle is 0 too and a response is requested; a
    read event with a non-zero handle, or one that asks for no response,
    triggers no send. *)
Theorem read_event_on_unassigned_descriptor (errRc : esp_err_t) :
  BLEDescriptor.getHandle this = 0 ->
  (read_handle (read param) <> 0 -> on_read errRc = Ok (this, [])) /\
  (read_need_rsp (read param) = false -> on_read errRc = Ok (this, [])) /\
  (read_handle (read param) = 0 -> read_need_rsp (read param) = true ->
   well_formed MAX this ->
   exists rsp,
     on_read errRc
     = Ok (this, esp_ble_gatts_send_response gatts_if (read_conn_id (read param))
                   (read_trans_id (read param)) ESP_GATT_OK rsp :: logged errRc)) /\
  (forall this' t,
     on_read errRc = Ok (this', t) ->
     (sends_response t = true
      <-> read_handle (read param) = 0 /\ read_need_rsp (read param) = true)).
Proof.
  unfold BLEDescriptor.getHandle. intros H0.
  unfold on_read, logged, BLEDescriptor.handleGATTServerEvent. rewrite H0.
  split; [|split; [|split]].
  - intros Hne%N.eqb_neq. rewrite Hne. reflexivity.
  - intros ->. destruct (_ =? 0); reflexivity.
  - intros -> -> Hwf. simpl. rewrite (make_rsp_Ok _ _ _ Hwf).
    eexists. destruct (errRc =? ESP_OK)%Z; reflexivity.
  - intros this' t E. split.
    + intros Hs. destruct (read_handle (read param) =? 0) eqn:Hh.
      * destruct (read_need_rsp (read param)).
        -- split; [apply N.eqb_eq, Hh|reflexivity].
        -- injection E as _ <-. discriminate.
      * injection E as _ <-. discriminate.
    + intros [Hh Hn]. rewrite Hh, Hn in E. simpl in E.
      apply bind_inv in E as (rsp & t1 & t2 & Hrsp & E & ->).
      unfold BLEDescriptor.make_rsp in Hrsp.
      destruct (_ && _); [|discriminate]. injection Hrsp as _ <-.
      destruct (negb (errRc =? ESP_OK)%Z); simpl in E; injection E as _ <-; reflexivity.
Qed.

Hypothesis MAX_fits : MAX < 2 ^ 16.

(** C6.  A write event for the handle of the descriptor, with a value no
    longer than the maximum, stores the event's bytes and sends exactly one
    response: on the event's connection and transaction, with status OK, the
    new length, the new bytes, the descriptor's handle, offset 0 and no
    authentication requirement.  What the send call returns only decides
    whether an error is logged; the descriptor is the same either way. *)
Theorem write_event_updates_and_responds :
  well_formed MAX this ->
  BLEDescriptor.getHandle this <> 0 ->
  write_handle (write param) = BLEDescriptor.getHandle this ->
  write_len (write param) <= MAX ->
  write_len (write param) <= N.of_nat (List.length (write_value (write param))) ->
  exists this',
    BLEDescriptor.getLength this' = write_len (write param) /\
    firstn (N.to_nat (write_len (write param))) (BLEDescriptor.getValue this')
      = firstn (N.to_nat (write_len (write param))) (write_value (write param)) /\
    BLEDescriptor.getHandle this' = BLEDescriptor.getHandle this /\
    forall errRc,
      on_write errRc
      = Ok (this',
            esp_ble_gatts_send_response gatts_if (write_conn_id (write param))
              (write_trans_id (write param)) ESP_GATT_OK
              {| rsp_value := firstn (N.to_nat (write_len (write param)))
                                (write_value (write param));
                 rsp_handle := BLEDescriptor.getHandle this;
                 rsp_offset := 0;
                 rsp_len := write_len (write param);
                 rsp_auth_req := ESP_GATT_AUTH_REQ_NONE |}
            :: logged errRc).
Proof.
  intros Hwf Hassigned Hh Hmax Hbuf.
  pose proof (setValue_Ok MAX MAX_fits this _ _ Hwf Hmax Hbuf) as Hset.
  pose proof (setValue_well_formed MAX MAX_fits _ _ _ _ _ Hwf Hset) as Hwf'.
  eexists. split; [|split; [|split]]; cycle 3.
  - intros errRc. unfold on_write, logged, BLEDescriptor.handleGATTServerEvent.
    rewrite Hh. unfold BLEDescriptor.getHandle. rewrite N.eqb_refl.
    rewrite (bind_Ok _ _ _ _ Hset).
    rewrite (bind_Ok _ _ _ _ (make_rsp_Ok _ _ _ Hwf')).
    unfold BLEDescriptor.getLength, BLEDescriptor.getValue. simpl.
    rewrite to_uint16_small by lia.
    rewrite memcpy_prefix by assumption.
    destruct (errRc =? ESP_OK)%Z; reflexivity.
  - reflexivity.
  - unfold BLEDescriptor.getValue. simpl. apply memcpy_prefix. assumption.
  - reflexivity.
Qed.

End DescriptorReadWrite.

(** ** BLEService: the serialization lock and [executeCreate] *)

Section ServiceCreate.

Variable this : BLEService.t.
Variable gatts_if : N.
Variable errRc : esp_err_t.


End ServiceCreate.

(** ** BLEService: the characteristic-added event *)

Section ServiceCharacteristicAdded.

Variable this : BLEService.t.
Variable chars : gmap N BLECharacteristic.t.
Variable gatts_if : N.
Variable param : esp_ble_gatts_cb_param_t.

Let uuid := add_char_char_uuid (add_char param).
Let attr_handle := add_char_attr_handle (add_char param).
Let forwarded :=
  BLECharacteristicMap_handleGATTServerEvent ESP_GATTS_ADD_CHAR_EVT gatts_if param.
Let delivered :=
  BLEService.handleGATTServerEvent this chars ESP_GATTS_ADD_CHAR_EVT gatts_if param.

(** C5.  A characteristic-added event for this service's handle: when the
    service has no characteristic with the event's UUID, an error is logged
    and the lock is given back, and nothing else changes; when it has one,
    that characteristic gets the event's attribute handle, the handle-keyed
    map points to it under that handle, and the lock is given back. *)
Theorem characteristic_added_for_this_service :
  BLEService.getHandle this = add_char_service_handle (add_char param) ->
  (BLEService.getCharacteristic this uuid = None ->
   exists e,
     delivered
     = Ok ((BLEService.set_m_serializeMutex this false, chars),
           [ESP_LOGE BLEService.LOG_TAG e; Mutex_give; forwarded])) /\
  (forall (a : N) (c : BLECharacteristic.t),
     BLEService.getCharacteristic this uuid = Some a ->
     chars !! a = Some c ->
     exists this' chars',
       delivered = Ok ((this', chars'), [Mutex_give; forwarded]) /\
       chars' = <[a := BLECharacteristic.setHandle c attr_handle]> chars /\
       (exists c', chars' !! a = Some c' /\ BLECharacteristic.getHandle c' = attr_handle /\
                   BLECharacteristic.getUUID c' = BLECharacteristic.getUUID c) /\
       BLECharacteristicMap.getByHandle (BLEService.m_characteristicMap this') attr_handle
         = Some a /\
       (forall u, BLEService.getCharacteristic this' u = BLEService.getCharacteristic this u) /\
       BLEService.m_serializeMutex this' = false /\
       BLEService.getHandle this' = BLEService.getHandle this /\
       BLEService.getLastCreatedCharacteristic this'
         = BLEService.getLastCreatedCharacteristic this).
Proof.
  unfold BLEService.getHandle. intros Hh.
  unfold delivered, BLEService.handleGATTServerEvent, BLEUUID_of_native.
  rewrite Hh, N.eqb_refl. fold uuid. split.
  - intros ->. eexists. reflexivity.
  - intros a c -> Ec. unfold deref. rewrite Ec. simpl.
    eexists. eexists. split; [reflexivity|].
    split; [reflexivity|].
    split.
    { eexists. split; [apply lookup_insert_eq|]. split; reflexivity. }
    split.
    { unfold BLECharacteristicMap.getByHandle. simpl. apply lookup_insert_eq. }
    split; [intros u; reflexivity|].
    split; [reflexivity|]. split; [exact Hh|reflexivity].
Qed.

(** What the fall-through does for an event of another service. *)
Lemma characteristic_added_for_another_service :
  BLEService.getHandle this <> add_char_service_handle (add_char param) ->
  delivered
  = if equals (BLEService.getUUID this)
         (id_uuid (srvc_id (create_service_id (create param))))
    then Ok ((BLEService.set_m_serializeMutex
                (BLEService.setHandle this (create_service_handle (create param))) false,
              chars),
             [Mutex_give; forwarded])
    else Ok ((this, chars), [forwarded]).
Proof.
  unfold BLEService.getHandle. intros Hne%N.eqb_neq.
  unfold delivered, BLEService.handleGATTServerEvent, BLEService.case_ESP_GATTS_CREATE_EVT,
    BLEUUID_of_native.
  rewrite Hne. destruct (equals _ _); reflexivity.
Qed.

End ServiceCharacteristicAdded.

(** C4.  The service of UUID 0x0010 waits for its creation event, holding
    the lock, with handle 0.  A characteristic-added event of another service
    (service handle 2) is delivered.  The [ESP_GATTS_ADD_CHAR_EVT] case has
    no [break] for this path and falls through into the
    [ESP_GATTS_CREATE_EVT] case, which reads the event through the member
    [create]: the service takes 42 as its handle and gives the lock back. *)
Theorem foreign_characteristic_added_falls_through :
  BLEService.executeCreate (BLEService.BLEService 16
      {| srvc_id := {| id_uuid := 0; id_inst_id := 0 |}; srvc_is_primary := true |}) 3 ESP_OK
  = Ok (service_awaiting_creation,
        [Mutex_take "executeCreate";
         esp_ble_gatts_create_service 3 (BLEService.m_srvc_id service_awaiting_creation) 10]) /\
  (add_char_service_handle (add_char foreign_characteristic_added)
     =? BLEService.getHandle service_awaiting_creation) = false /\
  BLEService.handleGATTServerEvent service_awaiting_creation scenario_characteristics
    ESP_GATTS_ADD_CHAR_EVT 3 foreign_characteristic_added
  = Ok ((BLEService.set_m_serializeMutex
           (BLEService.setHandle service_awaiting_creation 42) false,
         scenario_characteristics),
        [Mutex_give;
         BLECharacteristicMap_handleGATTServerEvent ESP_GATTS_ADD_CHAR_EVT 3
           foreign_characteristic_added]).
Proof.
  split; [reflexivity|]. split; [reflexivity|].
  rewrite characteristic_added_for_another_service by discriminate. reflexivity.
Qed.

(** ** BLEService: characteristics and their UUIDs *)

Lemma addCharacteristic_duplicate (this : BLEService.t) (chars : gmap N BLECharacteristic.t)
    (p q : N) (c : BLECharacteristic.t) :
  chars !! p = Some c ->
  BLEService.getCharacteristic this (BLECharacteristic.getUUID c) = Some q ->
  BLEService.addCharacteristic this chars (Some p)
  = Ok (this, [ESP_LOGE BLEService.LOG_TAG
                 "<< Attempt to add a characteristic but we already have one with this UUID"]).
Proof.
  intros Ec Hq. unfold BLEService.addCharacteristic, deref. rewrite Ec, bind_ret_l.
  unfold BLEService.getCharacteristic in Hq. rewrite Hq. reflexivity.
Qed.

Lemma addCharacteristic_new (this : BLEService.t) (chars : gmap N BLECharacteristic.t)
    (p : N) (c : BLECharacteristic.t) :
  chars !! p = Some c ->
  BLEService.getCharacteristic this (BLECharacteristic.getUUID c) = None ->
  BLEService.addCharacteristic this chars (Some p)
  = Ok (BLEService.set_m_characteristicMap this
          (BLECharacteristicMap.setByUUID (BLEService.m_characteristicMap this)
             (BLECharacteristic.getUUID c) p), []).
Proof.
  intros Ec Hq. unfold BLEService.addCharacteristic, deref. rewrite Ec, bind_ret_l.
  unfold BLEService.getCharacteristic in Hq. rewrite Hq. reflexivity.
Qed.

Lemma addCharacteristic_keyed (this this' : BLEService.t) (chars : gmap N BLECharacteristic.t)
    (p : option N) (t : list effect) :
  keyed_by_uuid this chars ->
  BLEService.addCharacteristic this chars p = Ok (this', t) ->
  keyed_by_uuid this' chars.
Proof.
  intros Hinv E. unfold BLEService.addCharacteristic, deref in E.
  destruct p as [a|]; [|discriminate].
  destruct (chars !! a) as [c|] eqn:Ec; [|discriminate].
  rewrite bind_ret_l in E.
  destruct (BLECharacteristicMap.getByUUID _ _) eqn:Hq.
  - simpl in E. injection E as <- _. exact Hinv.
  - injection E as <- _. intros uuid b. simpl.
    destruct (N.eq_dec (BLECharacteristic.getUUID c) uuid) as [<-|Hne].
    + rewrite lookup_insert_eq. intros [= <-]. exists c. auto.
    + rewrite lookup_insert_ne by exact Hne. apply Hinv.
Qed.

Lemma executeCreate_keeps_map (this this' : BLEService.t) (gatts_if : N)
    (errRc : esp_err_t) (t : list effect) :
  BLEService.executeCreate this gatts_if errRc = Ok (this', t) ->
  BLEService.m_characteristicMap this' = BLEService.m_characteristicMap this.
Proof.
  unfold BLEService.executeCreate, BLEService.take. simpl.
  destruct (BLEService.m_serializeMutex this); [discriminate|].
  destruct (negb (errRc =? ESP_OK)%Z); simpl; intros [= <- _]; reflexivity.
Qed.

Lemma handleGATTServerEvent_keyed (this this' : BLEService.t)
    (chars chars' : gmap N BLECharacteristic.t) (event : esp_gatts_cb_event_t)
    (gatts_if : N) (param : esp_ble_gatts_cb_param_t) (t : list effect) :
  keyed_by_uuid this chars ->
  BLEService.handleGATTServerEvent this chars event gatts_if param = Ok ((this', chars'), t) ->
  keyed_by_uuid this' chars'.
Proof.
  intros Hinv E. unfold BLEService.handleGATTServerEvent in E.
  apply bind_inv in E as ([s1 ch1] & t1 & t2 & E & [= <- <-] & _).
  assert (forall s, BLEService.case_ESP_GATTS_CREATE_EVT this param = Ok (s, t1) ->
                    keyed_by_uuid s chars) as Hcreate.
  { intros s. unfold BLEService.case_ESP_GATTS_CREATE_EVT.
    destruct (equals _ _); simpl; intros [= <- _]; exact Hinv. }
  assert (forall (m : M BLEService.t),
            (do s <- m; ret (s, chars)) = Ok ((s1, ch1), t1) ->
            exists t0, m = Ok (s1, t0) /\ ch1 = chars) as Hpair.
  { intros m (s & t3 & t4 & -> & [= <- <-] & _)%bind_inv. eauto. }
  destruct event; try (injection E as <- <- _; exact Hinv).
  - apply Hpair in E as (t0 & E & ->).
    unfold BLEService.case_ESP_GATTS_CREATE_EVT in E.
    destruct (equals _ _); simpl in E; injection E as <- _; exact Hinv.
  - destruct (_ =? _).
    + destruct (BLEService.getCharacteristic this _) as [a|] eqn:Hq.
      * unfold deref in E. destruct (chars !! a) as [c|] eqn:Ec; [|discriminate].
        simpl in E. injection E as <- <- _.
        intros uuid b Hb. simpl in Hb.
        destruct (Hinv uuid b Hb) as (cb & Ecb & Hu).
        destruct (N.eq_dec a b) as [->|Hne].
        -- rewrite lookup_insert_eq. eexists. split; [reflexivity|].
           rewrite Ec in Ecb. injection Ecb as ->. exact Hu.
        -- rewrite lookup_insert_ne by exact Hne. exists cb. auto.
      * simpl in E. injection E as <- <- _. exact Hinv.
    + apply Hpair in E as (t0 & E & ->).
      unfold BLEService.case_ESP_GATTS_CREATE_EVT in E.
      destruct (equals _ _); simpl in E; injection E as <- _; exact Hinv.
Qed.

Lemma service_step_keyed (this this' : BLEService.t)
    (chars chars' : gmap N BLECharacteristic.t) (op : service_operation) (t : list effect) :
  keyed_by_uuid this chars ->
  service_step (this, chars) op = Ok ((this', chars'), t) ->
  keyed_by_uuid this' chars'.
Proof.
  intros Hinv. destruct op as [p|gatts_if errRc|event gatts_if param]; simpl.
  - intros (s & t1 & t2 & E & [= <- <-] & _)%bind_inv.
    exact (addCharacteristic_keyed _ _ _ _ _ Hinv E).
  - intros (s & t1 & t2 & E%executeCreate_keeps_map & [= <- <-] & _)%bind_inv.
    unfold keyed_by_uuid. rewrite E. exact Hinv.
  - apply handleGATTServerEvent_keyed, Hinv.
Qed.

Lemma service_run_keyed (ops : list service_operation) :
  forall (this this' : BLEService.t) (chars chars' : gmap N BLECharacteristic.t)
         (t : list effect),
    keyed_by_uuid this chars ->
    service_run (this, chars) ops = Ok ((this', chars'), t) ->
    keyed_by_uuid this' chars'.
Proof.
  induction ops as [|op rest IH]; intros this this' chars chars' t Hinv; simpl.
  - intros [= <- <-]. exact Hinv.
  - intros ([s ch] & t1 & t2 & Hstep & Hrun & _)%bind_inv.
    exact (IH _ _ _ _ _ (service_step_keyed _ _ _ _ _ _ Hinv Hstep) Hrun).
Qed.

Lemma constructed_keyed (uuid : N) (srvc_id0 : esp_gatt_srvc_id_t)
    (chars : gmap N BLECharacteristic.t) :
  keyed_by_uuid (BLEService.BLEService uuid srvc_id0) chars.
Proof. intros u a H. simpl in H. rewrite lookup_empty in H. discriminate. Qed.

(** C7.  Adding a characteristic whose UUID is in the map already only logs
    an error: the service is unchanged, so it has as many characteristics as
    before and [getCharacteristic] still returns the one stored first.  In
    every state a service reaches from construction, two entries of its map
    that point to characteristics with the same UUID are the same entry. *)
Theorem addCharacteristic_rejects_duplicate_uuid :
  (forall (this : BLEService.t) (chars : gmap N BLECharacteristic.t) (p q : N)
          (c : BLECharacteristic.t),
     chars !! p = Some c ->
     BLEService.getCharacteristic this (BLECharacteristic.getUUID c) = Some q ->
     exists this' e,
       BLEService.addCharacteristic this chars (Some p)
         = Ok (this', [ESP_LOGE BLEService.LOG_TAG e]) /\
       this' = this /\
       characteristic_count this' = characteristic_count this /\
       BLEService.getCharacteristic this' (BLECharacteristic.getUUID c) = Some q) /\
  (forall (uuid : N) (srvc_id0 : esp_gatt_srvc_id_t) (chars chars' : gmap N BLECharacteristic.t)
          (ops : list service_operation) (this' : BLEService.t) (t : list effect),
     service_run (BLEService.BLEService uuid srvc_id0, chars) ops = Ok ((this', chars'), t) ->
     forall (u1 u2 a1 a2 : N) (c1 c2 : BLECharacteristic.t),
       BLEService.getCharacteristic this' u1 = Some a1 ->
       BLEService.getCharacteristic this' u2 = Some a2 ->
       chars' !! a1 = Some c1 ->
       chars' !! a2 = Some c2 ->
       BLECharacteristic.getUUID c1 = BLECharacteristic.getUUID c2 ->
       u1 = u2 /\ a1 = a2).
Proof.
  split.
  - intros this chars p q c Ec Hq. exists this. eexists.
    split; [exact (addCharacteristic_duplicate _ _ _ _ _ Ec Hq)|]. auto.
  - intros uuid srvc_id0 chars chars' ops this' t Hrun u1 u2 a1 a2 c1 c2 H1 H2 E1 E2 Hu.
    assert (keyed_by_uuid this' chars') as Hinv.
    { exact (service_run_keyed _ _ _ _ _ _ (constructed_keyed uuid srvc_id0 chars) Hrun). }
    destruct (Hinv u1 a1 H1) as (c1' & E1' & <-).
    destruct (Hinv u2 a2 H2) as (c2' & E2' & <-).
    assert (BLECharacteristic.getUUID c1' = BLECharacteristic.getUUID c2') as Heq by congruence.
    split; [exact Heq|].
    unfold BLEService.getCharacteristic, BLECharacteristicMap.getByUUID in H1, H2.
    rewrite Heq in H1. congruence.
Qed.

(** ** BLEDescriptor: every descriptor is well formed *)

Section DescriptorWellFormed.

Variable MAX : N.
Hypothesis MAX_fits : MAX < 2 ^ 16.
Variable debug_logging : bool.

Lemma constructed_well_formed (uuid : N) (block : list byte) :
  N.of_nat (List.length block) = MAX ->
  well_formed MAX (BLEDescriptor.BLEDescriptor MAX uuid block).
Proof.
  intros Hblock. split; [exact Hblock|].
  unfold BLEDescriptor.getLength. simpl. lia.
Qed.

Lemma descriptor_step_well_formed (this this' : BLEDescriptor.t) (heap : Heap)
    (op : descriptor_operation) (t : list effect) :
  well_formed MAX this ->
  descriptor_step MAX debug_logging this heap op = Ok (this', t) ->
  well_formed MAX this'.
Proof.
  intros Hwf. destruct op as [data len|h|p rc|event gatts_if param rc]; simpl.
  - apply setValue_well_formed; assumption.
  - intros [= <- _]. exact Hwf.
  - unfold BLEDescriptor.executeCreate.
    destruct (negb (BLEDescriptor.m_handle this =? 0)).
    + simpl. intros [= <- _]. exact Hwf.
    + intros (c & t1 & t2 & _ & (s & t3 & t4 & _ & E & _)%bind_inv & _)%bind_inv.
      destruct (negb (rc =? ESP_OK)%Z); simpl in E; injection E as <- _; exact Hwf.
  - destruct event.
    + unfold BLEDescriptor.handleGATTServerEvent.
      destruct (_ =? _); [|intros [= <- _]; exact Hwf].
      destruct (read_need_rsp _); [|intros [= <- _]; exact Hwf].
      intros ->%respond_frame. exact Hwf.
    + unfold BLEDescriptor.handleGATTServerEvent.
      destruct (_ =? _); [|intros [= <- _]; exact Hwf].
      intros (d & t1 & t2 & Hset & ->%respond_frame & _)%bind_inv.
      exact (setValue_well_formed MAX MAX_fits _ _ _ _ _ Hwf Hset).
    + intros [= <- _]. exact Hwf.
    + intros [= <- _]. exact Hwf.
    + intros E.
      destruct (delivered_cases MAX debug_logging heap gatts_if param rc this) as [E'|E'];
        rewrite E' in E; [discriminate|].
      injection E as <- _. destruct (fully_qualifying this heap param); exact Hwf.
    + intros [= <- _]. exact Hwf.
Qed.

(** Whatever is done to a descriptor after its construction, its buffer
    stays the block of [MAX] bytes and its length stays within it. *)
Lemma descriptor_run_well_formed (ops : list (Heap * descriptor_operation)) :
  forall (this this' : BLEDescriptor.t) (t : list effect),
    well_formed MAX this ->
    descriptor_run MAX debug_logging this ops = Ok (this', t) ->
    well_formed MAX this'.
Proof.
  induction ops as [|[heap op] rest IH]; intros this this' t Hwf; simpl.
  - intros [= <- _]. exact Hwf.
  - intros (d & t1 & t2 & Hstep & Hrun & _)%bind_inv.
    exact (IH _ _ _ (descriptor_step_well_formed _ _ _ _ _ Hwf Hstep) Hrun).
Qed.

End DescriptorWellFormed.

(** * The properties on the scenario *)

(** C3, as the specification has it, fails on the code.  A handle, once
    non-zero, is reassigned: after [executeCreate] and a first
    fully-qualifying descriptor-added event the handle is 43, and a second
    fully-qualifying event makes it 45. *)
Lemma handle_reassigned_by_second_creation_event :
  descriptor_run 600 false fresh_descriptor (firstn 2 life_with_two_creation_events)
  = Ok (BLEDescriptor.setHandle (descriptor_of 1) 43,
        [esp_ble_gatts_add_char_descr 40 UD [ESP_GATT_PERM_READ; ESP_GATT_PERM_WRITE]
           (BLEDescriptor.m_value fresh_descriptor)]) /\
  BLEDescriptor.getHandle (BLEDescriptor.setHandle (descriptor_of 1) 43) = 43 /\
  BLEDescriptor.handleGATTServerEvent 600 false
    (BLEDescriptor.setHandle (descriptor_of 1) 43) (scenario_heap (Some 1))
    ESP_GATTS_ADD_CHAR_DESCR_EVT 3 (descriptor_added 45) ESP_OK
  = Ok (BLEDescriptor.setHandle (descriptor_of 1) 45, []) /\
  BLEDescriptor.getHandle (BLEDescriptor.setHandle (descriptor_of 1) 45) = 45.
Proof. repeat split; vm_compute; reflexivity. Qed.

(** C8, as the specification has it, fails on the code.  A read event for
    handle 0 that requests a response is answered by a descriptor as
    constructed, whose handle is 0. *)
Lemma unassigned_descriptor_answers_read_of_handle_0 :
  BLEDescriptor.getHandle fresh_descriptor = 0 /\
  BLEDescriptor.handleGATTServerEvent 600 false fresh_descriptor (scenario_heap None)
    ESP_GATTS_READ_EVT 3 (read_request 0) ESP_OK
  = Ok (fresh_descriptor,
        [esp_ble_gatts_send_response 3 1 7 ESP_GATT_OK
           {| rsp_value := []; rsp_handle := 0; rsp_offset := 0; rsp_len := 0;
              rsp_auth_req := ESP_GATT_AUTH_REQ_NONE |}]).
Proof. split; vm_compute; reflexivity. Qed.

(** The descriptor as constructed with a block of 600 bytes is well
    formed. *)
Lemma fresh_descriptor_well_formed : well_formed 600 fresh_descriptor.
Proof. split; vm_compute; [reflexivity|discriminate]. Defined.

(** C1 on the scenario: the characteristic at address 1 was created last;
    the descriptor under it adopts handle 43, the descriptor with the same
    UUID under the characteristic at address 2 keeps handle 0. *)
Lemma descriptor_added_four_conditions_witness :
  BLEDescriptor.handleGATTServerEvent 600 false (descriptor_of 1) (scenario_heap (Some 1))
    ESP_GATTS_ADD_CHAR_DESCR_EVT 3 (descriptor_added 43) ESP_OK
  = Ok (BLEDescriptor.setHandle (descriptor_of 1) 43, []) /\
  BLEDescriptor.handleGATTServerEvent 600 false (descriptor_of 2) (scenario_heap (Some 1))
    ESP_GATTS_ADD_CHAR_DESCR_EVT 3 (descriptor_added 43) ESP_OK
  = Ok (descriptor_of 2, []) /\
  BLEDescriptor.getHandle (descriptor_of 2) = 0.
Proof.
  destruct (descriptor_added_four_conditions 600 false (descriptor_of 1)
              (scenario_heap (Some 1)) 3 (descriptor_added 43) ESP_OK)
    as (_ & _ & _ & Htwo).
  apply (Htwo (descriptor_of 2) 1 2
           {| BLECharacteristic.m_bleUUID := U1; BLECharacteristic.m_handle := 42;
              BLECharacteristic.m_pService := Some 10 |}
           {| BLECharacteristic.m_bleUUID := U2; BLECharacteristic.m_handle := 44;
              BLECharacteristic.m_pService := Some 10 |}
           10 (scenario_service (Some 1)));
    try (vm_compute; reflexivity).
  discriminate.
Defined.

(** C2 on the scenario: two bytes are stored, 601 bytes are rejected. *)
Lemma setValue_stores_or_rejects_witness :
  (exists this',
     BLEDescriptor.setValue 600 fresh_descriptor [x41; x42] 2 = Ok (this', []) /\
     BLEDescriptor.getLength this' = 2 /\
     firstn 2 (BLEDescriptor.getValue this') = [x41; x42]) /\
  (exists e,
     BLEDescriptor.setValue 600 fresh_descriptor (zeros 601) 601
     = Ok (fresh_descriptor, [ESP_LOGE BLEDescriptor.LOG_TAG e])).
Proof.
  assert (600 < 2 ^ 16) as Hfits by reflexivity.
  split.
  - destruct (proj1 (setValue_stores_or_rejects 600 Hfits fresh_descriptor [x41; x42] 2))
      as (this' & E & Hlen & Hval & _).
    + exact fresh_descriptor_well_formed.
    + vm_compute. discriminate.
    + vm_compute. discriminate.
    + exists this'. auto.
  - apply (proj2 (setValue_stores_or_rejects 600 Hfits fresh_descriptor (zeros 601) 601)).
    reflexivity.
Defined.

(** C3 on the scenario: after two fully-qualifying events the handle is the
    one assigned last. *)
Lemma handle_is_the_last_assigned_witness :
  exists t,
    descriptor_run 600 false (BLEDescriptor.BLEDescriptor 600 UD (zeros 600))
      life_with_two_creation_events
    = Ok (BLEDescriptor.setHandle (descriptor_of 1) 45, t) /\
    BLEDescriptor.getHandle (BLEDescriptor.setHandle (descriptor_of 1) 45)
    = last_assigned 600 false (BLEDescriptor.BLEDescriptor 600 UD (zeros 600))
        life_with_two_creation_events 0.
Proof.
  eexists.
  assert (descriptor_run 600 false (BLEDescriptor.BLEDescriptor 600 UD (zeros 600))
            life_with_two_creation_events
          = Ok (BLEDescriptor.setHandle (descriptor_of 1) 45, _)) as Hrun
    by (vm_compute; reflexivity).
  split; [exact Hrun|].
  exact (proj2 (proj2 (handle_is_the_last_assigned 600 false)) _ _ _ _ _ Hrun).
Defined.

(** C8 on the scenario: a read event for handle 43 is not answered by a
    descriptor whose handle is 0. *)
Lemma read_event_on_unassigned_descriptor_witness :
  BLEDescriptor.handleGATTServerEvent 600 false fresh_descriptor (scenario_heap None)
    ESP_GATTS_READ_EVT 3 (read_request 43) ESP_OK
  = Ok (fresh_descriptor, []).
Proof.
  apply (proj1 (read_event_on_unassigned_descriptor 600 false fresh_descriptor
                  (scenario_heap None) 3 (read_request 43) ESP_OK eq_refl)).
  vm_compute. discriminate.
Defined.

(** C6 on the scenario: the descriptor with handle 43 stores the two bytes
    written and answers once. *)
Lemma write_event_updates_and_responds_witness :
  exists this',
    BLEDescriptor.getLength this' = 2 /\
    firstn 2 (BLEDescriptor.getValue this') = [x43; x44] /\
    BLEDescriptor.handleGATTServerEvent 600 false
      (BLEDescriptor.setHandle (descriptor_of 1) 43) (scenario_heap (Some 1))
      ESP_GATTS_WRITE_EVT 3 (write_request 43 [x43; x44]) ESP_OK
    = Ok (this',
          [esp_ble_gatts_send_response 3 1 7 ESP_GATT_OK
             {| rsp_value := [x43; x44]; rsp_handle := 43; rsp_offset := 0; rsp_len := 2;
                rsp_auth_req := ESP_GATT_AUTH_REQ_NONE |}]).
Proof.
  assert (600 < 2 ^ 16) as Hfits by reflexivity.
  destruct (write_event_updates_and_responds 600 false
              (BLEDescriptor.setHandle (descriptor_of 1) 43) (scenario_heap (Some 1)) 3
              (write_request 43 [x43; x44]) Hfits)
    as (this' & Hlen & Hval & _ & Hall).
  - split; vm_compute; [reflexivity|discriminate].
  - vm_compute. discriminate.
  - reflexivity.
  - vm_compute. discriminate.
  - vm_compute. discriminate.
  - exists this'. split; [exact Hlen|]. split; [exact Hval|]. exact (Hall ESP_OK).
Defined.

(** C5 on the scenario: an event with an unknown UUID, and one for the
    characteristic [U1]. *)
Lemma characteristic_added_for_this_service_witness :
  (exists e,
     BLEService.handleGATTServerEvent created_service new_characteristics
       ESP_GATTS_ADD_CHAR_EVT 3 (characteristic_added 42 999)
     = Ok ((BLEService.set_m_serializeMutex created_service false, new_characteristics),
           [ESP_LOGE BLEService.LOG_TAG e; Mutex_give;
            BLECharacteristicMap_handleGATTServerEvent ESP_GATTS_ADD_CHAR_EVT 3
              (characteristic_added 42 999)])) /\
  (exists this' chars' c',
     BLEService.handleGATTServerEvent created_service new_characteristics
       ESP_GATTS_ADD_CHAR_EVT 3 (characteristic_added 42 U1)
     = Ok ((this', chars'),
           [Mutex_give;
            BLECharacteristicMap_handleGATTServerEvent ESP_GATTS_ADD_CHAR_EVT 3
              (characteristic_added 42 U1)]) /\
     chars' !! 1 = Some c' /\
     BLECharacteristic.getHandle c' = 42 /\
     BLECharacteristicMap.getByHandle (BLEService.m_characteristicMap this') 42 = Some 1 /\
     BLEService.m_serializeMutex this' = false).
Proof.
  split.
  - apply (proj1 (characteristic_added_for_this_service created_service new_characteristics
                    3 (characteristic_added 42 999) eq_refl)).
    vm_compute. reflexivity.
  - destruct (proj2 (characteristic_added_for_this_service created_service
                       new_characteristics 3 (characteristic_added 42 U1) eq_refl)
                1 {| BLECharacteristic.m_bleUUID := U1; BLECharacteristic.m_handle := 0;
                     BLECharacteristic.m_pService := Some 10 |})
      as (this' & chars' & E & _ & (c' & Ec' & Hc' & _) & Hmap & _ & Hfree & _).
    + vm_compute. reflexivity.
    + vm_compute. reflexivity.
    + exists this', chars', c'. auto.
Defined.

(** C7 on the scenario: the object at address 3 has the UUID [U1] of the
    characteristic at address 1 and is not added. *)
Lemma addCharacteristic_rejects_duplicate_uuid_witness :
  (exists this' e,
     BLEService.addCharacteristic created_service new_characteristics (Some 3)
       = Ok (this', [ESP_LOGE BLEService.LOG_TAG e]) /\
     characteristic_count this' = characteristic_count created_service /\
     BLEService.getCharacteristic this' U1 = Some 1) /\
  (exists this' t,
     service_run (BLEService.BLEService S1 (BLEService.m_srvc_id created_service),
                  new_characteristics)
       [call_addCharacteristic (Some 1); call_addCharacteristic (Some 3);
        call_addCharacteristic (Some 2)]
     = Ok ((this', new_characteristics), t) /\
     BLEService.getCharacteristic this' U1 = Some 1 /\
     characteristic_count this' = 2%nat /\
     (U1 = U1 /\ 1 = 1)).
Proof.
  split.
  - destruct (proj1 addCharacteristic_rejects_duplicate_uuid created_service
                new_characteristics 3 1
                {| BLECharacteristic.m_bleUUID := U1; BLECharacteristic.m_handle := 0;
                   BLECharacteristic.m_pService := None |})
      as (this' & e & E & _ & Hcount & Hget).
    + vm_compute. reflexivity.
    + vm_compute. reflexivity.
    + exists this', e. auto.
  - do 2 eexists.
    assert (service_run (BLEService.BLEService S1 (BLEService.m_srvc_id created_service),
                         new_characteristics)
              [call_addCharacteristic (Some 1); call_addCharacteristic (Some 3);
               call_addCharacteristic (Some 2)]
            = Ok ((_, new_characteristics), _)) as Hrun by (vm_compute; reflexivity).
    split; [exact Hrun|].
    split; [vm_compute; reflexivity|].
    split; [vm_compute; reflexivity|].
    apply (proj2 addCharacteristic_rejects_duplicate_uuid _ _ _ _ _ _ _ Hrun U1 U1 1 1
             {| BLECharacteristic.m_bleUUID := U1; BLECharacteristic.m_handle := 0;
                BLECharacteristic.m_pService := Some 10 |}
             {| BLECharacteristic.m_bleUUID := U1; BLECharacteristic.m_handle := 0;
                BLECharacteristic.m_pService := Some 10 |});
      vm_compute; reflexivity.
Defined.

(** C10 on the scenario: the descriptor as constructed, and the first
    descriptor-added event of the service. *)
Lemma descriptor_added_null_owner_witness :
  BLEDescriptor.handleGATTServerEvent 600 true fresh_descriptor (scenario_heap (Some 1))
    ESP_GATTS_ADD_CHAR_DESCR_EVT 3 (descriptor_added 43) ESP_OK = Fault /\
  BLEDescriptor.handleGATTServerEvent 600 false fresh_descriptor (scenario_heap (Some 1))
    ESP_GATTS_ADD_CHAR_DESCR_EVT 3 (descriptor_added 43) ESP_OK = Ok (fresh_descriptor, []).
Proof.
  exact (descriptor_added_null_owner 600 fresh_descriptor (scenario_heap (Some 1)) 3
           (descriptor_added 43) ESP_OK eq_refl).
Defined.

(** * Further properties of BLEDescriptor *)

(** ** [executeCreate] and the creation handshake *)

Lemma descriptor_executeCreate_Ok (this : BLEDescriptor.t) (heap : Heap) (errRc : esp_err_t)
    (a : N) (c : BLECharacteristic.t) (sa : N) (s : BLEService.t) :
  BLEDescriptor.m_handle this = 0 ->
  characteristics heap !! a = Some c ->
  BLECharacteristic.getService c = Some sa ->
  services heap !! sa = Some s ->
  BLEDescriptor.executeCreate this heap (Some a) errRc
  = Ok (BLEDescriptor.set_m_pCharacteristic this (Some a),
        esp_ble_gatts_add_char_descr (BLEService.getHandle s) (BLEDescriptor.getUUID this)
          [ESP_GATT_PERM_READ; ESP_GATT_PERM_WRITE] (BLEDescriptor.m_value this)
        :: (if (errRc =? ESP_OK)%Z then []
            else [ESP_LOGE BLEDescriptor.LOG_TAG
                    "<< esp_ble_gatts_add_char_descr: rc=%d %s"])).
Proof.
  intros H0 Ec Esa Es. unfold BLEDescriptor.executeCreate, deref.
  rewrite H0, Ec. simpl. rewrite Esa, Es. simpl.
  unfold getNative. destruct (errRc =? ESP_OK)%Z; reflexivity.
Qed.

(** X1.  [executeCreate] on a descriptor that has a handle only logs an
    error: no request goes to the stack and the characteristic passed is not
    recorded.  On a descriptor without a handle it records the
    characteristic and issues exactly one request, for the handle of the
    characteristic's service, the descriptor's UUID, read and write
    permission and the descriptor's value; a refusal by the stack is logged
    and changes nothing else, and the handle stays 0.  A null characteristic,
    or one that belongs to no service yet, is dereferenced. *)
Theorem descriptor_executeCreate_contract (this : BLEDescriptor.t) (heap : Heap)
    (errRc : esp_err_t) :
  (BLEDescriptor.getHandle this <> 0 ->
   forall p,
     BLEDescriptor.executeCreate this heap p errRc
     = Ok (this, [ESP_LOGE BLEDescriptor.LOG_TAG "Descriptor already has a handle."])) /\
  (BLEDescriptor.getHandle this = 0 ->
   forall (a : N) (c : BLECharacteristic.t) (sa : N) (s : BLEService.t),
     characteristics heap !! a = Some c ->
     BLECharacteristic.getService c = Some sa ->
     services heap !! sa = Some s ->
     BLEDescriptor.executeCreate this heap (Some a) errRc
     = Ok (BLEDescriptor.set_m_pCharacteristic this (Some a),
           esp_ble_gatts_add_char_descr (BLEService.getHandle s) (BLEDescriptor.getUUID this)
             [ESP_GATT_PERM_READ; ESP_GATT_PERM_WRITE] (BLEDescriptor.m_value this)
           :: (if (errRc =? ESP_OK)%Z then []
               else [ESP_LOGE BLEDescriptor.LOG_TAG
                       "<< esp_ble_gatts_add_char_descr: rc=%d %s"])) /\
     BLEDescriptor.getHandle (BLEDescriptor.set_m_pCharacteristic this (Some a)) = 0) /\
  (BLEDescriptor.getHandle this = 0 ->
   BLEDescriptor.executeCreate this heap None errRc = Fault /\
   forall (a : N) (c : BLECharacteristic.t),
     characteristics heap !! a = Some c ->
     BLECharacteristic.getService c = None ->
     BLEDescriptor.executeCreate this heap (Some a) errRc = Fault).
Proof.
  unfold BLEDescriptor.getHandle. split; [|split].
  - intros Hne%N.eqb_neq p. unfold BLEDescriptor.executeCreate. rewrite Hne. reflexivity.
  - intros H0 a c sa s Ec Esa Es.
    split; [|exact H0]. apply (descriptor_executeCreate_Ok _ _ _ _ _ _ _ H0 Ec Esa Es).
  - intros H0. unfold BLEDescriptor.executeCreate, deref. rewrite H0. simpl.
    split; [reflexivity|]. intros a c Ec Esa. rewrite Ec. simpl. rewrite Esa. reflexivity.
Qed.

Lemma descriptor_executeCreate_contract_witness :
  BLEDescriptor.executeCreate (BLEDescriptor.setHandle fresh_descriptor 43)
    (scenario_heap (Some 1)) (Some 2) ESP_OK
  = Ok (BLEDescriptor.setHandle fresh_descriptor 43,
        [ESP_LOGE BLEDescriptor.LOG_TAG "Descriptor already has a handle."]) /\
  BLEDescriptor.executeCreate fresh_descriptor (scenario_heap (Some 1)) (Some 1) (-1)%Z
  = Ok (descriptor_of 1,
        [esp_ble_gatts_add_char_descr 40 UD [ESP_GATT_PERM_READ; ESP_GATT_PERM_WRITE]
           (BLEDescriptor.m_value fresh_descriptor);
         ESP_LOGE BLEDescriptor.LOG_TAG "<< esp_ble_gatts_add_char_descr: rc=%d %s"]) /\
  BLEDescriptor.executeCreate fresh_descriptor (scenario_heap (Some 1)) None ESP_OK = Fault /\
  BLEDescriptor.executeCreate fresh_descriptor
    {| characteristics := new_characteristics; services := ∅ |} (Some 3) ESP_OK = Fault.
Proof.
  split; [|split; [|split]].
  - apply (proj1 (descriptor_executeCreate_contract (BLEDescriptor.setHandle fresh_descriptor 43)
                    (scenario_heap (Some 1)) ESP_OK)).
    vm_compute. discriminate.
  - apply (proj1 (proj2 (descriptor_executeCreate_contract fresh_descriptor
                           (scenario_heap (Some 1)) (-1)%Z)) eq_refl 1
             {| BLECharacteristic.m_bleUUID := U1; BLECharacteristic.m_handle := 42;
                BLECharacteristic.m_pService := Some 10 |} 10 (scenario_service (Some 1)));
      vm_compute; reflexivity.
  - apply (proj2 (proj2 (descriptor_executeCreate_contract fresh_descriptor
                           (scenario_heap (Some 1)) ESP_OK)) eq_refl).
  - apply (proj2 (proj2 (proj2 (descriptor_executeCreate_contract fresh_descriptor
                           {| characteristics := new_characteristics; services := ∅ |} ESP_OK))
                    eq_refl) 3
             {| BLECharacteristic.m_bleUUID := U1; BLECharacteristic.m_handle := 0;
                BLECharacteristic.m_pService := None |});
      vm_compute; reflexivity.
Defined.



(** ** Read and write events *)

Section DescriptorEvents.

Variable MAX : N.
Variable debug_logging : bool.
Variable this : BLEDescriptor.t.
Variable gatts_if : N.

Let sent (errRc : esp_err_t) : list effect :=
  if (errRc =? ESP_OK)%Z then []
  else [ESP_LOGE BLEDescriptor.LOG_TAG "esp_ble_gatts_send_response: rc=%d %s"].

(** The response that carries the value of a descriptor. *)
Let value_of (d : BLEDescriptor.t) (handle : N) : esp_gatt_rsp_t :=
  {| rsp_value := firstn (N.to_nat (BLEDescriptor.getLength d)) (BLEDescriptor.getValue d);
     rsp_handle := handle;
     rsp_offset := 0;
     rsp_len := BLEDescriptor.getLength d;
     rsp_auth_req := ESP_GATT_AUTH_REQ_NONE |}.

(** X4.  Events that are not addressed to the descriptor leave it as it is
    and have no effect: a write or read event for another handle, and every
    event other than write, read and descriptor-added. *)
Theorem events_for_others_are_ignored (heap : Heap) (event : esp_gatts_cb_event_t)
    (param : esp_ble_gatts_cb_param_t) (errRc : esp_err_t) :
  event <> ESP_GATTS_ADD_CHAR_DESCR_EVT ->
  (event = ESP_GATTS_WRITE_EVT -> write_handle (write param) <> BLEDescriptor.getHandle this) ->
  (event = ESP_GATTS_READ_EVT -> read_handle (read param) <> BLEDescriptor.getHandle this) ->
  BLEDescriptor.handleGATTServerEvent MAX debug_logging this heap event gatts_if param errRc
  = Ok (this, []).
Proof.
  unfold BLEDescriptor.getHandle. intros Hev Hw Hr.
  destruct event; try reflexivity; unfold BLEDescriptor.handleGATTServerEvent.
  - specialize (Hr eq_refl). apply N.eqb_neq in Hr. rewrite Hr. reflexivity.
  - specialize (Hw eq_refl). apply N.eqb_neq in Hw. rewrite Hw. reflexivity.
  - contradiction.
Qed.

Hypothesis MAX_fits : MAX < 2 ^ 16.
Hypothesis Hwf : well_formed MAX this.

Lemma getLength_uint16 (d : BLEDescriptor.t) :
  well_formed MAX d -> to_uint16 (BLEDescriptor.getLength d) = BLEDescriptor.getLength d.
Proof. intros [_ Hlen]. apply to_uint16_small. lia. Qed.

Lemma respond_Ok (d : BLEDescriptor.t) (g handle conn_id trans_id : N) (errRc : esp_err_t) :
  well_formed MAX d ->
  (do rsp <- BLEDescriptor.make_rsp MAX d handle;
   emit (esp_ble_gatts_send_response g conn_id trans_id ESP_GATT_OK rsp) ;;
   if negb (errRc =? ESP_OK)%Z then
     emit (ESP_LOGE BLEDescriptor.LOG_TAG "esp_ble_gatts_send_response: rc=%d %s") ;;
     ret d
   else ret d)
  = Ok (d, esp_ble_gatts_send_response g conn_id trans_id ESP_GATT_OK (value_of d handle)
           :: sent errRc).
Proof.
  intros Hd. rewrite (bind_Ok _ _ _ _ (make_rsp_Ok MAX d handle Hd)).
  unfold value_of, sent. rewrite (getLength_uint16 d Hd).
  destruct (errRc =? ESP_OK)%Z; reflexivity.
Qed.

Lemma read_event_Ok (d : BLEDescriptor.t) (heap : Heap) (g : N)
    (param : esp_ble_gatts_cb_param_t) (errRc : esp_err_t) :
  well_formed MAX d ->
  read_handle (read param) = BLEDescriptor.m_handle d ->
  BLEDescriptor.handleGATTServerEvent MAX debug_logging d heap ESP_GATTS_READ_EVT
    g param errRc
  = Ok (d,
        if read_need_rsp (read param) then
          esp_ble_gatts_send_response g (read_conn_id (read param))
            (read_trans_id (read param)) ESP_GATT_OK
            (value_of d (read_handle (read param)))
          :: sent errRc
        else []).
Proof.
  intros Hd Hh.
  unfold BLEDescriptor.handleGATTServerEvent. rewrite Hh, N.eqb_refl.
  destruct (read_need_rsp (read param)); [|reflexivity].
  rewrite <- Hh. apply respond_Ok, Hd.
Qed.

Lemma write_event_Ok (d : BLEDescriptor.t) (heap : Heap) (g : N)
    (param : esp_ble_gatts_cb_param_t) (errRc : esp_err_t) :
  well_formed MAX d ->
  write_handle (write param) = BLEDescriptor.m_handle d ->
  write_len (write param) <= MAX ->
  write_len (write param) <= N.of_nat (List.length (write_value (write param))) ->
  exists d',
    BLEDescriptor.setValue MAX d (write_value (write param)) (write_len (write param))
      = Ok (d', []) /\
    BLEDescriptor.handleGATTServerEvent MAX debug_logging d heap ESP_GATTS_WRITE_EVT
      g param errRc
    = Ok (d',
          esp_ble_gatts_send_response g (write_conn_id (write param))
            (write_trans_id (write param)) ESP_GATT_OK (value_of d' (BLEDescriptor.m_handle d))
          :: sent errRc).
Proof.
  intros Hd Hh Hmax Hbuf.
  pose proof (setValue_Ok MAX MAX_fits d _ _ Hd Hmax Hbuf) as Hset.
  pose proof (setValue_well_formed MAX MAX_fits _ _ _ _ _ Hd Hset) as Hd'.
  eexists. split; [exact Hset|].
  unfold BLEDescriptor.handleGATTServerEvent. rewrite Hh, N.eqb_refl.
  rewrite (bind_Ok _ _ _ _ Hset). cbv beta.
  rewrite (respond_Ok _ _ _ _ _ _ Hd'). reflexivity.
Qed.

(** X5.  A read event for the handle of the descriptor that requests a
    response is answered with exactly one response: the stored length, the
    first that many bytes of the buffer, the event's handle, offset 0, no
    authentication requirement, on the event's connection and transaction.
    Without a request for a response nothing is sent.  The descriptor is
    never changed by a read event. *)
Theorem read_event_responds_with_value (heap : Heap) (param : esp_ble_gatts_cb_param_t)
    (errRc : esp_err_t) :
  read_handle (read param) = BLEDescriptor.getHandle this ->
  BLEDescriptor.handleGATTServerEvent MAX debug_logging this heap ESP_GATTS_READ_EVT
    gatts_if param errRc
  = Ok (this,
        if read_need_rsp (read param) then
          esp_ble_gatts_send_response gatts_if (read_conn_id (read param))
            (read_trans_id (read param)) ESP_GATT_OK
            (value_of this (read_handle (read param)))
          :: sent errRc
        else []).
Proof.
  intros Hh. apply read_event_Ok; assumption.
Qed.

(** X3.  A write event for the handle of the descriptor whose length exceeds
    the maximum does not change the value, but is answered all the same: the
    rejection is logged and the response echoes the length and the bytes the
    descriptor had before. *)
Theorem write_event_too_long_is_answered_with_the_old_value (heap : Heap)
    (param : esp_ble_gatts_cb_param_t) (errRc : esp_err_t) :
  write_handle (write param) = BLEDescriptor.getHandle this ->
  MAX < write_len (write param) ->
  BLEDescriptor.handleGATTServerEvent MAX debug_logging this heap ESP_GATTS_WRITE_EVT
    gatts_if param errRc
  = Ok (this,
        ESP_LOGE BLEDescriptor.LOG_TAG "Size %d too large, must be no bigger than %d"
        :: esp_ble_gatts_send_response gatts_if (write_conn_id (write param))
             (write_trans_id (write param)) ESP_GATT_OK
             (value_of this (BLEDescriptor.getHandle this))
        :: sent errRc).
Proof.
  unfold BLEDescriptor.getHandle. intros Hh Hlen.
  unfold BLEDescriptor.handleGATTServerEvent. rewrite Hh, N.eqb_refl.
  rewrite (bind_Ok _ _ _ _ (setValue_rejects MAX this _ _ Hlen)). cbv beta.
  rewrite (respond_Ok _ _ _ _ _ _ Hwf). reflexivity.
Qed.

(** X6.  Write, then read.  After a write event of at most the maximum
    length, a read event for the same handle is answered with the bytes and
    the length written. *)
Theorem write_then_read_round_trip (heap heap' : Heap) (gatts_if' : N)
    (wparam rparam : esp_ble_gatts_cb_param_t) (errRc errRc' : esp_err_t) :
  write_handle (write wparam) = BLEDescriptor.getHandle this ->
  read_handle (read rparam) = BLEDescriptor.getHandle this ->
  read_need_rsp (read rparam) = true ->
  write_len (write wparam) <= MAX ->
  write_len (write wparam) <= N.of_nat (List.length (write_value (write wparam))) ->
  exists this' written,
    written = {| rsp_value := firstn (N.to_nat (write_len (write wparam)))
                                (write_value (write wparam));
                 rsp_handle := BLEDescriptor.getHandle this;
                 rsp_offset := 0;
                 rsp_len := write_len (write wparam);
                 rsp_auth_req := ESP_GATT_AUTH_REQ_NONE |} /\
    descriptor_run MAX debug_logging this
      [(heap, deliver ESP_GATTS_WRITE_EVT gatts_if wparam errRc);
       (heap', deliver ESP_GATTS_READ_EVT gatts_if' rparam errRc')]
    = Ok (this',
          (esp_ble_gatts_send_response gatts_if (write_conn_id (write wparam))
             (write_trans_id (write wparam)) ESP_GATT_OK written :: sent errRc)
          ++ esp_ble_gatts_send_response gatts_if' (read_conn_id (read rparam))
               (read_trans_id (read rparam)) ESP_GATT_OK written :: sent errRc').
Proof.
  unfold BLEDescriptor.getHandle. intros Hw Hr Hrsp Hmax Hbuf.
  destruct (write_event_Ok this heap gatts_if wparam errRc Hwf Hw Hmax Hbuf)
    as (this' & Hset & Hwrite).
  pose proof (setValue_well_formed MAX MAX_fits _ _ _ _ _ Hwf Hset) as Hwf'.
  destruct (setValue_frame _ _ _ _ _ _ Hset) as (Hh & _ & _).
  rewrite <- Hh in Hr.
  pose proof (read_event_Ok this' heap' gatts_if' rparam errRc' Hwf' Hr) as Hread.
  rewrite Hrsp in Hread.
  exists this'. eexists. split; [reflexivity|].
  cbn [descriptor_run descriptor_step].
  rewrite (bind_Ok _ _ _ _ Hwrite). rewrite (bind_Ok _ _ _ _ Hread). cbn [ret].
  rewrite app_nil_r, Hr, Hh.
  rewrite (setValue_Ok MAX MAX_fits this _ _ Hwf Hmax Hbuf) in Hset.
  injection Hset as <-.
  unfold value_of, BLEDescriptor.getLength, BLEDescriptor.getValue.
  cbn [BLEDescriptor.m_value BLEDescriptor.set_m_value attr_len attr_value].
  rewrite memcpy_prefix by assumption. reflexivity.
Qed.

End DescriptorEvents.

Lemma descriptor_holding_AB_well_formed : well_formed 600 (descriptor_holding [x41; x42]).
Proof. split; vm_compute; [reflexivity|discriminate]. Defined.

Lemma events_for_others_are_ignored_witness :
  BLEDescriptor.handleGATTServerEvent 600 true (descriptor_holding [x41; x42])
    (scenario_heap (Some 1)) ESP_GATTS_WRITE_EVT 3 (write_request 44 [x43; x44]) ESP_OK
  = Ok (descriptor_holding [x41; x42], []).
Proof.
  apply (events_for_others_are_ignored 600 true (descriptor_holding [x41; x42]) 3
           (scenario_heap (Some 1)) ESP_GATTS_WRITE_EVT (write_request 44 [x43; x44]) ESP_OK).
  - discriminate.
  - intros _. vm_compute. discriminate.
  - discriminate.
Defined.

Lemma read_event_responds_with_value_witness :
  BLEDescriptor.handleGATTServerEvent 600 false (descriptor_holding [x41; x42])
    (scenario_heap (Some 1)) ESP_GATTS_READ_EVT 3 (read_request 43) (-1)%Z
  = Ok (descriptor_holding [x41; x42],
        [esp_ble_gatts_send_response 3 1 7 ESP_GATT_OK
           {| rsp_value := [x41; x42]; rsp_handle := 43; rsp_offset := 0; rsp_len := 2;
              rsp_auth_req := ESP_GATT_AUTH_REQ_NONE |};
         ESP_LOGE BLEDescriptor.LOG_TAG "esp_ble_gatts_send_response: rc=%d %s"]).
Proof.
  assert (600 < 2 ^ 16) as Hfits by reflexivity.
  exact (read_event_responds_with_value 600 false (descriptor_holding [x41; x42]) 3 Hfits
           descriptor_holding_AB_well_formed (scenario_heap (Some 1)) (read_request 43)
           (-1)%Z eq_refl).
Defined.

Lemma write_event_too_long_is_answered_with_the_old_value_witness :
  BLEDescriptor.handleGATTServerEvent 600 false (descriptor_holding [x41; x42])
    (scenario_heap (Some 1)) ESP_GATTS_WRITE_EVT 3 (write_request 43 (zeros 601)) ESP_OK
  = Ok (descriptor_holding [x41; x42],
        [ESP_LOGE BLEDescriptor.LOG_TAG "Size %d too large, must be no bigger than %d";
         esp_ble_gatts_send_response 3 1 7 ESP_GATT_OK
           {| rsp_value := [x41; x42]; rsp_handle := 43; rsp_offset := 0; rsp_len := 2;
              rsp_auth_req := ESP_GATT_AUTH_REQ_NONE |}]).
Proof.
  assert (600 < 2 ^ 16) as Hfits by reflexivity.
  exact (write_event_too_long_is_answered_with_the_old_value 600 false
           (descriptor_holding [x41; x42]) 3 Hfits descriptor_holding_AB_well_formed
           (scenario_heap (Some 1)) (write_request 43 (zeros 601)) ESP_OK eq_refl eq_refl).
Defined.

Lemma write_then_read_round_trip_witness :
  exists this',
    descriptor_run 600 false (descriptor_holding [x41; x42])
      [(scenario_heap (Some 1), deliver ESP_GATTS_WRITE_EVT 3 (write_request 43 [x43; x44]) ESP_OK);
       (scenario_heap (Some 2), deliver ESP_GATTS_READ_EVT 4 (read_request 43) ESP_OK)]
    = Ok (this',
          [esp_ble_gatts_send_response 3 1 7 ESP_GATT_OK
             {| rsp_value := [x43; x44]; rsp_handle := 43; rsp_offset := 0; rsp_len := 2;
                rsp_auth_req := ESP_GATT_AUTH_REQ_NONE |};
           esp_ble_gatts_send_response 4 1 7 ESP_GATT_OK
             {| rsp_value := [x43; x44]; rsp_handle := 43; rsp_offset := 0; rsp_len := 2;
                rsp_auth_req := ESP_GATT_AUTH_REQ_NONE |}]).
Proof.
  assert (600 < 2 ^ 16) as Hfits by reflexivity.
  destruct (write_then_read_round_trip 600 false (descriptor_holding [x41; x42]) 3 Hfits
              descriptor_holding_AB_well_formed (scenario_heap (Some 1)) (scenario_heap (Some 2))
              4 (write_request 43 [x43; x44]) (read_request 43) ESP_OK ESP_OK)
    as (this' & written & -> & Hrun).
  - reflexivity.
  - reflexivity.
  - reflexivity.
  - vm_compute. discriminate.
  - vm_compute. discriminate.
  - exists this'. exact Hrun.
Defined.

(** ** The buffer *)

(** X7.  [setValue] overwrites the front of the buffer and nothing else: the
    bytes of the buffer from position [length] on are the ones that were
    there before, so a shorter value written after a longer one leaves the
    rest of the longer one in the buffer. *)
Theorem setValue_keeps_the_rest_of_the_buffer (MAX : N) (this this' : BLEDescriptor.t)
    (data : list byte) (length : N) (t : list effect) :
  BLEDescriptor.setValue MAX this data length = Ok (this', t) ->
  skipn (N.to_nat length) (BLEDescriptor.getValue this')
    = skipn (N.to_nat length) (BLEDescriptor.getValue this) /\
  List.length (BLEDescriptor.getValue this') = List.length (BLEDescriptor.getValue this).
Proof.
  unfold BLEDescriptor.setValue, BLEDescriptor.getValue.
  destruct (MAX <? length).
  - simpl. intros [= <- _]. split; reflexivity.
  - unfold memcpy. destruct (_ && _) eqn:Hb; [|discriminate].
    apply andb_true_iff in Hb as [Hs%N.leb_le Hd%N.leb_le].
    simpl. intros [= <- _]. simpl. split.
    + rewrite List.skipn_app, List.length_firstn.
      replace (N.to_nat length - Nat.min (N.to_nat length) (List.length data))%nat
        with 0%nat by lia.
      rewrite List.skipn_firstn_comm, Nat.sub_diag. reflexivity.
    + apply memcpy_length; assumption.
Qed.

Lemma setValue_keeps_the_rest_of_the_buffer_witness :
  exists this',
    BLEDescriptor.setValue 600 (descriptor_holding [x41; x42; x43; x44]) [x58; x59] 2
      = Ok (this', []) /\
    skipn (N.to_nat 2) (BLEDescriptor.getValue this')
      = skipn (N.to_nat 2) (BLEDescriptor.getValue (descriptor_holding [x41; x42; x43; x44])) /\
    firstn 4 (BLEDescriptor.getValue this') = [x58; x59; x43; x44].
Proof.
  eexists.
  assert (BLEDescriptor.setValue 600 (descriptor_holding [x41; x42; x43; x44]) [x58; x59] 2
          = Ok (_, [])) as Hset by (vm_compute; reflexivity).
  split; [exact Hset|].
  split; [exact (proj1 (setValue_keeps_the_rest_of_the_buffer _ _ _ _ _ _ Hset))|].
  reflexivity.
Defined.

Section DescriptorInvariant.

Variable MAX : N.
Hypothesis MAX_fits : MAX < 2 ^ 16.
Variable debug_logging : bool.

Lemma descriptor_step_constants (this this' : BLEDescriptor.t) (heap : Heap)
    (op : descriptor_operation) (t : list effect) :
  descriptor_step MAX debug_logging this heap op = Ok (this', t) ->
  BLEDescriptor.getUUID this' = BLEDescriptor.getUUID this /\
  attr_max_len (BLEDescriptor.m_value this') = attr_max_len (BLEDescriptor.m_value this).
Proof.
  assert (forall d d' data len t0,
            BLEDescriptor.setValue MAX d data len = Ok (d', t0) ->
            BLEDescriptor.getUUID d' = BLEDescriptor.getUUID d /\
            attr_max_len (BLEDescriptor.m_value d') = attr_max_len (BLEDescriptor.m_value d))
    as Hset.
  { intros d d' data len t0. unfold BLEDescriptor.setValue. destruct (MAX <? len).
    - simpl. intros [= <- _]. auto.
    - intros (buf & t1 & t2 & _ & [= <- _] & _)%bind_inv. auto. }
  destruct op as [data len|h|p rc|event gatts_if param rc]; simpl.
  - apply Hset.
  - intros [= <- _]. auto.
  - unfold BLEDescriptor.executeCreate.
    destruct (negb (BLEDescriptor.m_handle this =? 0)).
    + simpl. intros [= <- _]. auto.
    + intros (c & t1 & t2 & _ & (s & t3 & t4 & _ & E & _)%bind_inv & _)%bind_inv.
      destruct (negb (rc =? ESP_OK)%Z); simpl in E; injection E as <- _; auto.
  - destruct event; unfold BLEDescriptor.handleGATTServerEvent;
      try (intros [= <- _]; auto; fail).
    + destruct (_ =? _); [|intros [= <- _]; auto].
      destruct (read_need_rsp _); [|intros [= <- _]; auto].
      intros ->%respond_frame. auto.
    + destruct (_ =? _); [|intros [= <- _]; auto].
      intros (d & t1 & t2 & Hd%Hset & ->%respond_frame & _)%bind_inv. exact Hd.
    + intros E. fold (BLEDescriptor.handleGATTServerEvent MAX debug_logging this heap
                        ESP_GATTS_ADD_CHAR_DESCR_EVT gatts_if param rc) in E.
      destruct (delivered_cases MAX debug_logging heap gatts_if param rc this) as [E'|E'];
        rewrite E' in E; [discriminate|].
      injection E as <- _. destruct (fully_qualifying this heap param); auto.
Qed.

(** X8.  Whatever is done to a descriptor after its construction with a
    block of [ESP_GATT_MAX_ATTR_LEN] bytes - values set, handles set,
    creation requested, events delivered - its buffer keeps that size, the
    stored length never exceeds it, and its UUID and its recorded maximum
    length never change. *)
Theorem descriptor_invariant_from_construction (uuid : N) (block : list byte)
    (ops : list (Heap * descriptor_operation)) (this' : BLEDescriptor.t) (t : list effect) :
  N.of_nat (List.length block) = MAX ->
  descriptor_run MAX debug_logging (BLEDescriptor.BLEDescriptor MAX uuid block) ops
    = Ok (this', t) ->
  N.of_nat (List.length (BLEDescriptor.getValue this')) = MAX /\
  BLEDescriptor.getLength this' <= MAX /\
  attr_max_len (BLEDescriptor.m_value this') = MAX /\
  BLEDescriptor.getUUID this' = uuid.
Proof.
  intros Hblock Hrun.
  assert (forall ops d d' t0,
            descriptor_run MAX debug_logging d ops = Ok (d', t0) ->
            BLEDescriptor.getUUID d' = BLEDescriptor.getUUID d /\
            attr_max_len (BLEDescriptor.m_value d') = attr_max_len (BLEDescriptor.m_value d))
    as Hconst.
  { clear. induction ops as [|[heap op] rest IH]; intros d d' t0; simpl.
    - intros [= <- _]. auto.
    - intros (d1 & t1 & t2 & [Hu Hm]%descriptor_step_constants & [Hu' Hm']%IH & _)%bind_inv.
      split; congruence. }
  destruct (descriptor_run_well_formed MAX MAX_fits debug_logging ops _ _ _
              (constructed_well_formed MAX MAX_fits uuid block Hblock) Hrun) as [Hcap Hlen].
  destruct (Hconst _ _ _ _ Hrun) as [Hu Hm].
  split; [exact Hcap|]. split; [exact Hlen|]. split; [|exact Hu].
  rewrite Hm. simpl. apply to_uint16_small, MAX_fits.
Qed.

(** X9.  The [std::string] overload of [setValue] reads exactly the string:
    on a well-formed descriptor it never reads or writes out of bounds; a
    string of at most the maximum length is stored whole, a longer one is
    rejected with an error log and no change. *)
Theorem setValue_string_stores_or_rejects (this : BLEDescriptor.t) (value : list byte) :
  well_formed MAX this ->
  (N.of_nat (List.length value) <= MAX ->
   exists this',
     BLEDescriptor.setValue_string MAX this value = Ok (this', []) /\
     BLEDescriptor.getLength this' = N.of_nat (List.length value) /\
     firstn (List.length value) (BLEDescriptor.getValue this') = value /\
     well_formed MAX this') /\
  (MAX < N.of_nat (List.length value) ->
   BLEDescriptor.setValue_string MAX this value
   = Ok (this, [ESP_LOGE BLEDescriptor.LOG_TAG "Size %d too large, must be no bigger than %d"])).
Proof.
  intros Hwf. unfold BLEDescriptor.setValue_string. split.
  - intros Hmax.
    pose proof (setValue_Ok MAX MAX_fits this value _ Hwf Hmax (N.le_refl _)) as Hset.
    eexists. split; [exact Hset|].
    split; [reflexivity|].
    split; [|exact (setValue_well_formed MAX MAX_fits _ _ _ _ _ Hwf Hset)].
    unfold BLEDescriptor.getValue. simpl. rewrite Nat2N.id.
    rewrite List.firstn_app, List.firstn_firstn, Nat.min_id, List.length_firstn, Nat.min_id,
      Nat.sub_diag.
    simpl. rewrite List.app_nil_r. apply List.firstn_all.
  - apply setValue_rejects.
Qed.

End DescriptorInvariant.

Lemma descriptor_invariant_from_construction_witness :
  exists this' t,
    descriptor_run 600 false (BLEDescriptor.BLEDescriptor 600 UD (zeros 600))
      [(scenario_heap (Some 1), call_setValue [x41; x42] 2);
       (scenario_heap (Some 1), call_executeCreate (Some 1) ESP_OK);
       (scenario_heap (Some 1), call_setValue (zeros 601) 601)]
    = Ok (this', t) /\
    N.of_nat (List.length (BLEDescriptor.getValue this')) = 600 /\
    BLEDescriptor.getLength this' <= 600 /\
    BLEDescriptor.getUUID this' = UD.
Proof.
  assert (600 < 2 ^ 16) as Hfits by reflexivity.
  do 2 eexists.
  assert (descriptor_run 600 false (BLEDescriptor.BLEDescriptor 600 UD (zeros 600))
            [(scenario_heap (Some 1), call_setValue [x41; x42] 2);
             (scenario_heap (Some 1), call_executeCreate (Some 1) ESP_OK);
             (scenario_heap (Some 1), call_setValue (zeros 601) 601)]
          = Ok (_, _)) as Hrun by (vm_compute; reflexivity).
  split; [exact Hrun|].
  destruct (descriptor_invariant_from_construction 600 Hfits false UD (zeros 600) _ _ _
              eq_refl Hrun) as (Hcap & Hlen & _ & Hu).
  auto.
Defined.

Lemma setValue_string_stores_or_rejects_witness :
  (exists this',
     BLEDescriptor.setValue_string 600 fresh_descriptor [x41; x42] = Ok (this', []) /\
     BLEDescriptor.getLength this' = 2 /\
     firstn 2 (BLEDescriptor.getValue this') = [x41; x42]) /\
  BLEDescriptor.setValue_string 600 fresh_descriptor (zeros 601)
  = Ok (fresh_descriptor,
        [ESP_LOGE BLEDescriptor.LOG_TAG "Size %d too large, must be no bigger than %d"]).
Proof.
  assert (600 < 2 ^ 16) as Hfits by reflexivity.
  destruct (setValue_string_stores_or_rejects 600 Hfits fresh_descriptor [x41; x42]
              fresh_descriptor_well_formed) as [Hstore _].
  destruct (setValue_string_stores_or_rejects 600 Hfits fresh_descriptor (zeros 601)
              fresh_descriptor_well_formed) as [_ Hreject].
  split.
  - destruct Hstore as (this' & E & Hlen & Hval & _); [vm_compute; discriminate|].
    exists this'. auto.
  - apply Hreject. reflexivity.
Defined.

(** ** The owning characteristic *)

(** X10.  The owning characteristic of a descriptor is recorded by
    [executeCreate] on a descriptor without a handle, and by nothing else:
    every other operation, every event, and [executeCreate] on a descriptor
    that has a handle leave it as it is. *)
Theorem owner_is_recorded_by_executeCreate_only (MAX : N) (debug_logging : bool)
    (this this' : BLEDescriptor.t) (heap : Heap) (op : descriptor_operation)
    (t : list effect) :
  descriptor_step MAX debug_logging this heap op = Ok (this', t) ->
  BLEDescriptor.m_pCharacteristic this' <> BLEDescriptor.m_pCharacteristic this ->
  exists p errRc,
    op = call_executeCreate p errRc /\
    BLEDescriptor.getHandle this = 0 /\
    BLEDescriptor.m_pCharacteristic this' = p.
Proof.
  unfold BLEDescriptor.getHandle.
  destruct op as [data len|h|p rc|event gatts_if param rc]; simpl.
  - intros (_ & Ho & _)%setValue_frame Hne. contradiction.
  - intros [= <- _] Hne. contradiction Hne. reflexivity.
  - unfold BLEDescriptor.executeCreate.
    destruct (BLEDescriptor.m_handle this =? 0) eqn:H0.
    + intros (c & t1 & t2 & _ & (s & t3 & t4 & _ & E & _)%bind_inv & _)%bind_inv _.
      exists p, rc. apply N.eqb_eq in H0.
      destruct (negb (rc =? ESP_OK)%Z); simpl in E; injection E as <- _; auto.
    + simpl. intros [= <- _] Hne. contradiction Hne. reflexivity.
  - intros E Hne. exfalso. apply Hne. clear Hne. revert E.
    destruct event; unfold BLEDescriptor.handleGATTServerEvent;
      try (intros [= <- _]; reflexivity).
    + destruct (_ =? _); [|intros [= <- _]; reflexivity].
      destruct (read_need_rsp _); [|intros [= <- _]; reflexivity].
      intros ->%respond_frame. reflexivity.
    + destruct (_ =? _); [|intros [= <- _]; reflexivity].
      intros (d & t1 & t2 & (_ & Ho & _)%setValue_frame & ->%respond_frame & _)%bind_inv.
      exact Ho.
    + intros E. fold (BLEDescriptor.handleGATTServerEvent MAX debug_logging this heap
                        ESP_GATTS_ADD_CHAR_DESCR_EVT gatts_if param rc) in E.
      destruct (delivered_cases MAX debug_logging heap gatts_if param rc this) as [E'|E'];
        rewrite E' in E; [discriminate|].
      injection E as <- _. destruct (fully_qualifying this heap param); reflexivity.
Qed.

Lemma owner_is_recorded_by_executeCreate_only_witness :
  exists p errRc,
    call_executeCreate (Some 1) ESP_OK = call_executeCreate p errRc /\
    BLEDescriptor.getHandle fresh_descriptor = 0 /\
    BLEDescriptor.m_pCharacteristic (descriptor_of 1) = p.
Proof.
  apply (owner_is_recorded_by_executeCreate_only 600 false fresh_descriptor (descriptor_of 1)
           (scenario_heap (Some 1)) (call_executeCreate (Some 1) ESP_OK)
           [esp_ble_gatts_add_char_descr 40 UD [ESP_GATT_PERM_READ; ESP_GATT_PERM_WRITE]
              (BLEDescriptor.m_value fresh_descriptor)]).
  - vm_compute. reflexivity.
  - vm_compute. discriminate.
Defined.

(** * Further properties of BLEService *)

(** What [handleGATTServerEvent] can do, case by case. *)
Lemma service_event_cases (this this' : BLEService.t)
    (chars chars' : gmap N BLECharacteristic.t) (event : esp_gatts_cb_event_t)
    (gatts_if : N) (param : esp_ble_gatts_cb_param_t) (t : list effect) :
  BLEService.handleGATTServerEvent this chars event gatts_if param = Ok ((this', chars'), t) ->
  let forwarded := BLECharacteristicMap_handleGATTServerEvent event gatts_if param in
  (* the characteristic of the event gets its handle *)
  (event = ESP_GATTS_ADD_CHAR_EVT /\
   BLEService.m_handle this = add_char_service_handle (add_char param) /\
   exists a c,
     BLEService.getCharacteristic this (add_char_char_uuid (add_char param)) = Some a /\
     chars !! a = Some c /\
     chars' = <[a := BLECharacteristic.setHandle c (add_char_attr_handle (add_char param))]> chars /\
     this' = BLEService.set_m_serializeMutex
               (BLEService.set_m_characteristicMap this
                  (BLECharacteristicMap.setByHandle (BLEService.m_characteristicMap this)
                     (add_char_attr_handle (add_char param)) a)) false /\
     t = [Mutex_give; forwarded]) \/
  (* the service has no characteristic of the event's UUID *)
  (event = ESP_GATTS_ADD_CHAR_EVT /\
   BLEService.m_handle this = add_char_service_handle (add_char param) /\
   BLEService.getCharacteristic this (add_char_char_uuid (add_char param)) = None /\
   chars' = chars /\
   this' = BLEService.set_m_serializeMutex this false /\
   exists e, t = [ESP_LOGE BLEService.LOG_TAG e; Mutex_give; forwarded]) \/
  (* the body of the creation case adopts a handle *)
  ((event = ESP_GATTS_CREATE_EVT \/
    (event = ESP_GATTS_ADD_CHAR_EVT /\
     BLEService.m_handle this <> add_char_service_handle (add_char param))) /\
   equals (BLEService.getUUID this)
     (id_uuid (srvc_id (create_service_id (create param)))) = true /\
   chars' = chars /\
   this' = BLEService.set_m_serializeMutex
             (BLEService.setHandle this (create_service_handle (create param))) false /\
   t = [Mutex_give; forwarded]) \/
  (* the event is only forwarded *)
  (chars' = chars /\ this' = this /\ t = [forwarded]).
Proof.
  unfold BLEService.handleGATTServerEvent, BLEService.case_ESP_GATTS_CREATE_EVT,
    BLEUUID_of_native.
  intros E. cbv zeta.
  destruct event; simpl in E;
    try (injection E as <- <- <-; right; right; right; auto; fail).
  - destruct (equals _ _) eqn:Hu; simpl in E; injection E as <- <- <-.
    + right; right; left. auto 10.
    + right; right; right. auto.
  - destruct (_ =? _) eqn:Hh.
    + apply N.eqb_eq in Hh.
      destruct (BLEService.getCharacteristic this _) as [a|] eqn:Hq.
      * unfold deref in E. destruct (chars !! a) as [c|] eqn:Ec; [|discriminate].
        simpl in E. injection E as <- <- <-.
        left. split; [reflexivity|]. split; [exact Hh|]. exists a, c. auto 10.
      * simpl in E. injection E as <- <- <-.
        right; left. split; [reflexivity|]. split; [exact Hh|]. eauto 10.
    + apply N.eqb_neq in Hh.
      destruct (equals _ _) eqn:Hu; simpl in E; injection E as <- <- <-.
      * right; right; left. auto 10.
      * right; right; right. auto.
Qed.

(** ** Registering characteristics *)

(** X11.  Adding a characteristic whose UUID the service does not have yet
    registers it: [getCharacteristic] returns it for its UUID and is
    unchanged for every other UUID, the service has one characteristic more,
    nothing is logged or sent, and handle, lock, last created characteristic
    and the handle-keyed map are as before. *)
Theorem addCharacteristic_registers_a_new_uuid (this : BLEService.t)
    (chars : gmap N BLECharacteristic.t) (p : N) (c : BLECharacteristic.t) :
  chars !! p = Some c ->
  BLEService.getCharacteristic this (BLECharacteristic.getUUID c) = None ->
  exists this',
    BLEService.addCharacteristic this chars (Some p) = Ok (this', []) /\
    BLEService.getCharacteristic this' (BLECharacteristic.getUUID c) = Some p /\
    (forall u, u <> BLECharacteristic.getUUID c ->
               BLEService.getCharacteristic this' u = BLEService.getCharacteristic this u) /\
    characteristic_count this' = S (characteristic_count this) /\
    BLEService.getHandle this' = BLEService.getHandle this /\
    BLEService.m_serializeMutex this' = BLEService.m_serializeMutex this /\
    BLEService.getLastCreatedCharacteristic this' = BLEService.getLastCreatedCharacteristic this /\
    (forall h, BLECharacteristicMap.getByHandle (BLEService.m_characteristicMap this') h
               = BLECharacteristicMap.getByHandle (BLEService.m_characteristicMap this) h).
Proof.
  intros Ec Hnew. eexists. split; [exact (addCharacteristic_new _ _ _ _ Ec Hnew)|].
  unfold BLEService.getCharacteristic, BLECharacteristicMap.getByUUID, characteristic_count in *.
  simpl. split; [apply lookup_insert_eq|].
  split; [intros u Hu; apply lookup_insert_ne; congruence|].
  split; [apply map_size_insert_None, Hnew|]. auto.
Qed.

Lemma addCharacteristic_registers_a_new_uuid_witness :
  exists this',
    BLEService.addCharacteristic
      (BLEService.BLEService S1 (BLEService.m_srvc_id created_service))
      new_characteristics (Some 2)
    = Ok (this', []) /\
    BLEService.getCharacteristic this' U2 = Some 2 /\
    characteristic_count this' = 1%nat.
Proof.
  destruct (addCharacteristic_registers_a_new_uuid
              (BLEService.BLEService S1 (BLEService.m_srvc_id created_service))
              new_characteristics 2
              {| BLECharacteristic.m_bleUUID := U2; BLECharacteristic.m_handle := 0;
                 BLECharacteristic.m_pService := Some 10 |})
    as (this' & E & Hget & _ & Hcount & _).
  - vm_compute. reflexivity.
  - vm_compute. reflexivity.
  - exists this'. split; [exact E|]. split; [exact Hget|]. exact Hcount.
Defined.

Lemma addCharacteristic_cases (this : BLEService.t) (chars : gmap N BLECharacteristic.t)
    (p : N) (c : BLECharacteristic.t) :
  chars !! p = Some c ->
  BLEService.addCharacteristic this chars (Some p)
  = match BLEService.getCharacteristic this (BLECharacteristic.getUUID c) with
    | Some _ =>
        Ok (this, [ESP_LOGE BLEService.LOG_TAG
                     "<< Attempt to add a characteristic but we already have one with this UUID"])
    | None =>
        Ok (BLEService.set_m_characteristicMap this
              (BLECharacteristicMap.setByUUID (BLEService.m_characteristicMap this)
                 (BLECharacteristic.getUUID c) p), [])
    end.
Proof.
  intros Ec. destruct (BLEService.getCharacteristic this _) eqn:Hq.
  - exact (addCharacteristic_duplicate _ _ _ _ _ Ec Hq).
  - exact (addCharacteristic_new _ _ _ _ Ec Hq).
Qed.

(** X12.  The order in which two characteristics with different UUIDs are
    added does not matter: both orders give the same service and the same
    error logs. *)
Theorem addCharacteristic_order_is_irrelevant (this : BLEService.t)
    (chars : gmap N BLECharacteristic.t) (p q : N) (cp cq : BLECharacteristic.t) :
  chars !! p = Some cp ->
  chars !! q = Some cq ->
  BLECharacteristic.getUUID cp <> BLECharacteristic.getUUID cq ->
  service_run (this, chars) [call_addCharacteristic (Some p); call_addCharacteristic (Some q)]
  = service_run (this, chars) [call_addCharacteristic (Some q); call_addCharacteristic (Some p)].
Proof.
  intros Ep Eq Hne. cbn [service_run service_step fst snd].
  rewrite (addCharacteristic_cases this chars p cp Ep).
  rewrite (addCharacteristic_cases this chars q cq Eq).
  unfold BLEService.getCharacteristic, BLECharacteristicMap.getByUUID.
  destruct (BLECharacteristicMap.m_uuidMap (BLEService.m_characteristicMap this)
              !! BLECharacteristic.getUUID cp) as [p0|] eqn:Hp;
    destruct (BLECharacteristicMap.m_uuidMap (BLEService.m_characteristicMap this)
                !! BLECharacteristic.getUUID cq) as [q0|] eqn:Hq;
    cbn [bind ret fst snd];
    rewrite ?(addCharacteristic_cases _ chars p cp Ep), ?(addCharacteristic_cases _ chars q cq Eq);
    unfold BLEService.getCharacteristic, BLECharacteristicMap.getByUUID;
    cbn [BLEService.m_characteristicMap BLEService.set_m_characteristicMap
         BLECharacteristicMap.m_uuidMap BLECharacteristicMap.setByUUID];
    rewrite ?lookup_insert_ne by congruence;
    rewrite ?Hp, ?Hq; cbn [bind ret fst snd app]; try reflexivity.
  unfold BLEService.set_m_characteristicMap, BLECharacteristicMap.setByUUID. simpl.
  rewrite (insert_insert_ne (BLECharacteristicMap.m_uuidMap (BLEService.m_characteristicMap this))
             (BLECharacteristic.getUUID cp) (BLECharacteristic.getUUID cq)) by exact Hne.
  reflexivity.
Qed.

Lemma addCharacteristic_order_is_irrelevant_witness :
  service_run (BLEService.BLEService S1 (BLEService.m_srvc_id created_service),
               new_characteristics)
    [call_addCharacteristic (Some 1); call_addCharacteristic (Some 2)]
  = service_run (BLEService.BLEService S1 (BLEService.m_srvc_id created_service),
                 new_characteristics)
      [call_addCharacteristic (Some 2); call_addCharacteristic (Some 1)].
Proof.
  apply (addCharacteristic_order_is_irrelevant _ new_characteristics 1 2
           {| BLECharacteristic.m_bleUUID := U1; BLECharacteristic.m_handle := 0;
              BLECharacteristic.m_pService := Some 10 |}
           {| BLECharacteristic.m_bleUUID := U2; BLECharacteristic.m_handle := 0;
              BLECharacteristic.m_pService := Some 10 |}).
  - vm_compute. reflexivity.
  - vm_compute. reflexivity.
  - vm_compute. discriminate.
Defined.

(** ** Events delivered to a service *)

Section ServiceEvents.

Variable this this' : BLEService.t.
Variable chars chars' : gmap N BLECharacteristic.t.
Variable event : esp_gatts_cb_event_t.
Variable gatts_if : N.
Variable param : esp_ble_gatts_cb_param_t.
Variable t : list effect.

Hypothesis Hdelivered :
  BLEService.handleGATTServerEvent this chars event gatts_if param = Ok ((this', chars'), t).

Let forwarded := BLECharacteristicMap_handleGATTServerEvent event gatts_if param.

(** X13.  The handle of a service changes only where the body of the
    creation case runs for an event that carries the UUID of the service
    (read through the member [create]): on a creation event, or on a
    characteristic-added event of another service handle.  The new handle is
    the one that member carries.  Every other event leaves the handle as it
    is. *)
Theorem service_handle_changes_in_the_creation_case_only :
  BLEService.getHandle this' <> BLEService.getHandle this ->
  (event = ESP_GATTS_CREATE_EVT \/
   (event = ESP_GATTS_ADD_CHAR_EVT /\
    BLEService.getHandle this <> add_char_service_handle (add_char param))) /\
  equals (BLEService.getUUID this) (id_uuid (srvc_id (create_service_id (create param)))) = true /\
  BLEService.getHandle this' = create_service_handle (create param).
Proof.
  intros Hne.
  destruct (service_event_cases _ _ _ _ _ _ _ _ Hdelivered)
    as [(_ & _ & a & c & _ & _ & _ & -> & _)
       |[(_ & _ & _ & _ & -> & _)
       |[(Hev & Hu & _ & -> & _)
       |(_ & -> & _)]]];
    try (contradiction Hne; reflexivity).
  split; [exact Hev|]. split; [exact Hu|reflexivity].
Qed.

(** The effects of an event that was handled: the forward comes last and
    once; before it there is nothing, or the lock is given back, or an error
    is logged and the lock is given back. *)
Lemma service_event_effects :
  exists before,
    t = before ++ [forwarded] /\
    ((before = [] /\
      BLEService.m_serializeMutex this' = BLEService.m_serializeMutex this) \/
     ((before = [Mutex_give] \/ exists e, before = [ESP_LOGE BLEService.LOG_TAG e; Mutex_give]) /\
      BLEService.m_serializeMutex this' = false)).
Proof.
  destruct (service_event_cases _ _ _ _ _ _ _ _ Hdelivered)
    as [(_ & _ & a & c & _ & _ & _ & -> & ->)
       |[(_ & _ & _ & _ & -> & e & ->)
       |[(_ & _ & _ & -> & ->)
       |(_ & -> & ->)]]].
  - exists [Mutex_give]. split; [reflexivity|]. right. auto.
  - exists [ESP_LOGE BLEService.LOG_TAG e; Mutex_give]. split; [reflexivity|]. right. eauto.
  - exists [Mutex_give]. split; [reflexivity|]. right. auto.
  - exists []. split; [reflexivity|]. left. auto.
Qed.

(** X15.  No event registers or removes a characteristic, or creates,
    destroys or moves one: after every event [getCharacteristic] answers as
    before for every UUID, the UUID of the service and its last created
    characteristic are as before, and at every address there is a
    characteristic with the same UUID and the same service as before, or
    none as before.  At most one characteristic changes, the one registered
    under the UUID of a characteristic-added event, and only in its
    handle. *)
Theorem service_events_keep_the_registrations :
  (forall u, BLEService.getCharacteristic this' u = BLEService.getCharacteristic this u) /\
  characteristic_count this' = characteristic_count this /\
  BLEService.getUUID this' = BLEService.getUUID this /\
  BLEService.getLastCreatedCharacteristic this' = BLEService.getLastCreatedCharacteristic this /\
  (forall a,
     (fun c => (BLECharacteristic.getUUID c, BLECharacteristic.getService c)) <$> (chars' !! a)
     = (fun c => (BLECharacteristic.getUUID c, BLECharacteristic.getService c)) <$> (chars !! a)) /\
  (forall a,
     chars' !! a <> chars !! a ->
     event = ESP_GATTS_ADD_CHAR_EVT /\
     BLEService.getCharacteristic this (add_char_char_uuid (add_char param)) = Some a /\
     BLECharacteristic.getHandle <$> (chars' !! a)
       = Some (add_char_attr_handle (add_char param))).
Proof.
  destruct (service_event_cases _ _ _ _ _ _ _ _ Hdelivered)
    as [(Hev & _ & a & c & Hq & Ec & -> & -> & _)
       |[(_ & _ & _ & -> & -> & _)
       |[(_ & _ & -> & -> & _)
       |(-> & -> & _)]]];
    (split; [intros u; reflexivity|]); (split; [reflexivity|]);
    (split; [reflexivity|]); (split; [reflexivity|]);
    try (split; [intros b; reflexivity|intros b Hb; contradiction Hb; reflexivity]).
  split.
  - intros b. destruct (N.eq_dec a b) as [<-|Hne].
    + rewrite lookup_insert_eq, Ec. reflexivity.
    + rewrite lookup_insert_ne by exact Hne. reflexivity.
  - intros b Hb. destruct (N.eq_dec a b) as [<-|Hne].
    + split; [exact Hev|]. split; [exact Hq|]. rewrite lookup_insert_eq. reflexivity.
    + rewrite lookup_insert_ne in Hb by exact Hne. contradiction Hb. reflexivity.
Qed.

End ServiceEvents.

Lemma service_handle_changes_in_the_creation_case_only_witness :
  (ESP_GATTS_CREATE_EVT = ESP_GATTS_CREATE_EVT \/
   (ESP_GATTS_CREATE_EVT = ESP_GATTS_ADD_CHAR_EVT /\
    BLEService.getHandle service_awaiting_creation
      <> add_char_service_handle (add_char (service_created 40 16)))) /\
  equals (BLEService.getUUID service_awaiting_creation)
    (id_uuid (srvc_id (create_service_id (create (service_created 40 16))))) = true /\
  BLEService.getHandle
    (BLEService.set_m_serializeMutex (BLEService.setHandle service_awaiting_creation 40) false)
  = create_service_handle (create (service_created 40 16)).
Proof.
  apply (service_handle_changes_in_the_creation_case_only service_awaiting_creation
           (BLEService.set_m_serializeMutex (BLEService.setHandle service_awaiting_creation 40)
              false)
           new_characteristics new_characteristics ESP_GATTS_CREATE_EVT 3
           (service_created 40 16)
           [Mutex_give;
            BLECharacteristicMap_handleGATTServerEvent ESP_GATTS_CREATE_EVT 3
              (service_created 40 16)]).
  - vm_compute. reflexivity.
  - vm_compute. discriminate.
Defined.

Lemma service_events_keep_the_registrations_witness :
  exists this' chars' t,
    BLEService.handleGATTServerEvent created_service new_characteristics
      ESP_GATTS_ADD_CHAR_EVT 3 (characteristic_added 42 U1)
    = Ok ((this', chars'), t) /\
    BLEService.getCharacteristic this' U1 = BLEService.getCharacteristic created_service U1 /\
    characteristic_count this' = characteristic_count created_service /\
    BLECharacteristic.getUUID <$> (chars' !! 1) = Some U1.
Proof.
  do 3 eexists.
  assert (BLEService.handleGATTServerEvent created_service new_characteristics
            ESP_GATTS_ADD_CHAR_EVT 3 (characteristic_added 42 U1)
          = Ok ((_, _), _)) as E by (vm_compute; reflexivity).
  split; [exact E|].
  destruct (service_events_keep_the_registrations _ _ _ _ _ _ _ _ E)
    as (Hget & Hcount & _ & _ & _ & _).
  split; [apply Hget|]. split; [exact Hcount|]. vm_compute. reflexivity.
Defined.

(** ** The creation handshake of a service *)

(** X16.  A service as constructed is created: [executeCreate] takes the
    lock and asks the stack for a service with the UUID of the service,
    instance 0 and 10 handles.  Until the creation event arrives a second
    [executeCreate] waits for the lock.  The creation event with the UUID of
    the service gives the service its handle and frees the lock, after which
    [executeCreate] can take it again. *)
Theorem service_creation_handshake (uuid : N) (srvc_id0 : esp_gatt_srvc_id_t)
    (chars : gmap N BLECharacteristic.t) (gatts_if gatts_if' gatts_if'' : N)
    (errRc errRc' errRc'' : esp_err_t) (param : esp_ble_gatts_cb_param_t) :
  equals uuid (id_uuid (srvc_id (create_service_id (create param)))) = true ->
  let requested :=
    {| srvc_id := {| id_uuid := uuid; id_inst_id := 0 |};
       srvc_is_primary := srvc_is_primary srvc_id0 |} in
  let logged :=
    if (errRc =? ESP_OK)%Z then []
    else [ESP_LOGE BLEService.LOG_TAG "esp_ble_gatts_create_service: rc=%d %s"] in
  service_run (BLEService.BLEService uuid srvc_id0, chars)
    [call_service_executeCreate gatts_if errRc; call_service_executeCreate gatts_if' errRc']
  = Blocked /\
  exists this',
    service_run (BLEService.BLEService uuid srvc_id0, chars)
      [call_service_executeCreate gatts_if errRc;
       deliver_to_service ESP_GATTS_CREATE_EVT gatts_if' param]
    = Ok ((this', chars),
          Mutex_take "executeCreate"
          :: esp_ble_gatts_create_service gatts_if requested 10
          :: logged
          ++ [Mutex_give;
              BLECharacteristicMap_handleGATTServerEvent ESP_GATTS_CREATE_EVT gatts_if' param]) /\
    BLEService.getHandle this' = create_service_handle (create param) /\
    BLEService.m_serializeMutex this' = false /\
    exists this'' t,
      BLEService.executeCreate this' gatts_if'' errRc'' = Ok (this'', t) /\
      BLEService.m_serializeMutex this'' = true.
Proof.
  intros Hu. cbv zeta. split.
  - cbn [service_run service_step fst snd]. unfold BLEService.executeCreate, BLEService.take.
    simpl. destruct (errRc =? ESP_OK)%Z; reflexivity.
  - cbn [service_run service_step fst snd].
    unfold BLEService.executeCreate, BLEService.take, BLEService.handleGATTServerEvent,
      BLEService.case_ESP_GATTS_CREATE_EVT, BLEUUID_of_native, getNative.
    simpl. destruct (errRc =? ESP_OK)%Z; simpl; rewrite Hu; simpl;
      (eexists; split; [reflexivity|]; split; [reflexivity|]; split; [reflexivity|]);
      destruct (errRc'' =? ESP_OK)%Z; simpl; do 2 eexists; split; reflexivity.
Qed.

Lemma service_creation_handshake_witness :
  service_run (BLEService.BLEService 16 (BLEService.m_srvc_id created_service),
               new_characteristics)
    [call_service_executeCreate 3 ESP_OK; call_service_executeCreate 3 ESP_OK]
  = Blocked /\
  exists this',
    service_run (BLEService.BLEService 16 (BLEService.m_srvc_id created_service),
                 new_characteristics)
      [call_service_executeCreate 3 ESP_OK;
       deliver_to_service ESP_GATTS_CREATE_EVT 3 (service_created 40 16)]
    = Ok ((this', new_characteristics),
          [Mutex_take "executeCreate";
           esp_ble_gatts_create_service 3
             {| srvc_id := {| id_uuid := 16; id_inst_id := 0 |}; srvc_is_primary := true |} 10;
           Mutex_give;
           BLECharacteristicMap_handleGATTServerEvent ESP_GATTS_CREATE_EVT 3
             (service_created 40 16)]) /\
    BLEService.getHandle this' = 40 /\
    BLEService.m_serializeMutex this' = false.
Proof.
  destruct (service_creation_handshake 16 (BLEService.m_srvc_id created_service)
              new_characteristics 3 3 3 ESP_OK ESP_OK ESP_OK (service_created 40 16) eq_refl)
    as (Hblocked & this' & Hrun & Hh & Hfree & _).
  split; [exact Hblocked|]. exists this'. auto.
Defined.

(** ** The handle-keyed map *)

Lemma service_step_indexed (this this' : BLEService.t)
    (chars chars' : gmap N BLECharacteristic.t) (op : service_operation) (t : list effect) :
  keyed_by_uuid this chars ->
  indexed_by_handle this chars ->
  service_step (this, chars) op = Ok ((this', chars'), t) ->
  indexed_by_handle this' chars'.
Proof.
  intros Hkey Hidx. destruct op as [p|gatts_if errRc|event gatts_if param]; simpl.
  - intros (s & t1 & t2 & E & [= <- <-] & _)%bind_inv.
    unfold BLEService.addCharacteristic, deref in E.
    destruct p as [a0|]; [|discriminate].
    destruct (chars !! a0) as [c0|] eqn:Ec0; [|discriminate].
    rewrite bind_ret_l in E.
    destruct (BLECharacteristicMap.getByUUID _ _) eqn:Hq.
    + simpl in E. injection E as <- _. exact Hidx.
    + injection E as <- _. intros h a Hh.
      destruct (Hidx h a Hh) as (c & Ec & Hreg). exists c. split; [exact Ec|].
      unfold BLEService.getCharacteristic, BLECharacteristicMap.getByUUID in *. simpl.
      rewrite lookup_insert_ne; [exact Hreg|]. intros Heq. rewrite Heq in Hq. congruence.
  - intros (s & t1 & t2 & E%executeCreate_keeps_map & [= <- <-] & _)%bind_inv.
    unfold indexed_by_handle, BLEService.getCharacteristic. rewrite E. exact Hidx.
  - intros E.
    destruct (service_event_cases _ _ _ _ _ _ _ _ E)
      as [(_ & _ & a0 & c0 & Hq & Ec0 & -> & -> & _)
         |[(_ & _ & _ & -> & -> & _)
         |[(_ & _ & -> & -> & _)
         |(-> & -> & _)]]]; try exact Hidx.
    intros h a. unfold BLECharacteristicMap.getByHandle, BLEService.getCharacteristic. simpl.
    destruct (Hkey _ _ Hq) as (c0' & Ec0' & Hu0).
    assert (c0' = c0) as -> by congruence.
    unfold BLECharacteristic.getUUID in *.
    destruct (N.eq_dec (add_char_attr_handle (add_char param)) h) as [<-|Hne].
    + rewrite lookup_insert_eq. intros [= <-]. rewrite lookup_insert_eq.
      eexists. split; [reflexivity|]. simpl. rewrite Hu0. exact Hq.
    + rewrite lookup_insert_ne by exact Hne. intros Hh.
      destruct (Hidx h a Hh) as (c & Ec & Hreg).
      destruct (N.eq_dec a0 a) as [<-|Hna].
      * rewrite lookup_insert_eq. eexists. split; [reflexivity|]. simpl.
        rewrite Hu0. exact Hq.
      * rewrite lookup_insert_ne by exact Hna. exists c. auto.
Qed.

(** X17.  In every state a service reaches from construction - by adding
    characteristics, being created, receiving events - each entry of the
    handle-keyed map points to a characteristic object that exists and that
    the service has registered under its UUID: looking a characteristic up by
    handle never yields one that looking up by UUID would not. *)
Theorem handle_index_points_to_registered_characteristics (uuid : N)
    (srvc_id0 : esp_gatt_srvc_id_t) (chars chars' : gmap N BLECharacteristic.t)
    (ops : list service_operation) (this' : BLEService.t) (t : list effect) :
  service_run (BLEService.BLEService uuid srvc_id0, chars) ops = Ok ((this', chars'), t) ->
  forall (handle a : N),
    BLECharacteristicMap.getByHandle (BLEService.m_characteristicMap this') handle = Some a ->
    exists c,
      chars' !! a = Some c /\
      BLEService.getCharacteristic this' (BLECharacteristic.getUUID c) = Some a.
Proof.
  assert (forall ops s s' ch ch' t0,
            keyed_by_uuid s ch -> indexed_by_handle s ch ->
            service_run (s, ch) ops = Ok ((s', ch'), t0) ->
            indexed_by_handle s' ch') as Hrun.
  { clear. induction ops as [|op rest IH]; intros s s' ch ch' t0 Hkey Hidx; simpl.
    - intros [= <- <-]. exact Hidx.
    - intros ([s1 ch1] & t1 & t2 & Hstep & Hrest & _)%bind_inv.
      exact (IH _ _ _ _ _ (service_step_keyed _ _ _ _ _ _ Hkey Hstep)
               (service_step_indexed _ _ _ _ _ _ Hkey Hidx Hstep) Hrest). }
  intros E. refine (Hrun _ _ _ _ _ _ (constructed_keyed uuid srvc_id0 chars) _ E).
  intros h a Hh. unfold BLECharacteristicMap.getByHandle in Hh. simpl in Hh.
  rewrite lookup_empty in Hh. discriminate.
Qed.

Lemma handle_index_points_to_registered_characteristics_witness :
  exists this' chars' t c,
    service_run (BLEService.BLEService S1 (BLEService.m_srvc_id created_service),
                 new_characteristics)
      [call_addCharacteristic (Some 1);
       call_service_executeCreate 3 ESP_OK;
       deliver_to_service ESP_GATTS_CREATE_EVT 3 (service_created 40 S1);
       deliver_to_service ESP_GATTS_ADD_CHAR_EVT 3 (characteristic_added 42 U1)]
    = Ok ((this', chars'), t) /\
    BLECharacteristicMap.getByHandle (BLEService.m_characteristicMap this') 42 = Some 1 /\
    chars' !! 1 = Some c /\
    BLEService.getCharacteristic this' (BLECharacteristic.getUUID c) = Some 1.
Proof.
  do 3 eexists.
  assert (service_run (BLEService.BLEService S1 (BLEService.m_srvc_id created_service),
                       new_characteristics)
            [call_addCharacteristic (Some 1);
             call_service_executeCreate 3 ESP_OK;
             deliver_to_service ESP_GATTS_CREATE_EVT 3 (service_created 40 S1);
             deliver_to_service ESP_GATTS_ADD_CHAR_EVT 3 (characteristic_added 42 U1)]
          = Ok ((_, _), _)) as Hrun by (vm_compute; reflexivity).
  destruct (handle_index_points_to_registered_characteristics _ _ _ _ _ _ _ Hrun 42 1)
    as (c & Ec & Hreg).
  - vm_compute. reflexivity.
  - exists c. split; [exact Hrun|]. split; [vm_compute; reflexivity|]. auto.
Defined.

Lemma characteristic_added_Ok (this : BLEService.t) (chars : gmap N BLECharacteristic.t)
    (gatts_if : N) (param : esp_ble_gatts_cb_param_t) (a : N) (c : BLECharacteristic.t) :
  add_char_service_handle (add_char param) = BLEService.m_handle this ->
  BLEService.getCharacteristic this (add_char_char_uuid (add_char param)) = Some a ->
  chars !! a = Some c ->
  BLEService.handleGATTServerEvent this chars ESP_GATTS_ADD_CHAR_EVT gatts_if param
  = Ok ((BLEService.set_m_serializeMutex
           (BLEService.set_m_characteristicMap this
              (BLECharacteristicMap.setByHandle (BLEService.m_characteristicMap this)
                 (add_char_attr_handle (add_char param)) a)) false,
         <[a := BLECharacteristic.setHandle c (add_char_attr_handle (add_char param))]> chars),
        [Mutex_give;
         BLECharacteristicMap_handleGATTServerEvent ESP_GATTS_ADD_CHAR_EVT gatts_if param]).
Proof.
  intros Hh Hq Ec. unfold BLEService.handleGATTServerEvent, BLEUUID_of_native, deref.
  rewrite Hh, N.eqb_refl, Hq, Ec. reflexivity.
Qed.

(** X18.  A second characteristic-added event for the same UUID gives the
    characteristic the second handle, and the handle-keyed map then points
    to it under both handles: the entry of the first handle is not
    removed. *)
Theorem second_characteristic_added_keeps_the_first_index (this : BLEService.t)
    (chars : gmap N BLECharacteristic.t) (gatts_if gatts_if' : N)
    (param param' : esp_ble_gatts_cb_param_t) (a : N) (c : BLECharacteristic.t) :
  add_char_service_handle (add_char param) = BLEService.getHandle this ->
  add_char_service_handle (add_char param') = BLEService.getHandle this ->
  add_char_char_uuid (add_char param') = add_char_char_uuid (add_char param) ->
  BLEService.getCharacteristic this (add_char_char_uuid (add_char param)) = Some a ->
  chars !! a = Some c ->
  exists this',
    service_run (this, chars)
      [deliver_to_service ESP_GATTS_ADD_CHAR_EVT gatts_if param;
       deliver_to_service ESP_GATTS_ADD_CHAR_EVT gatts_if' param']
    = Ok ((this',
           <[a := BLECharacteristic.setHandle c (add_char_attr_handle (add_char param'))]> chars),
          [Mutex_give;
           BLECharacteristicMap_handleGATTServerEvent ESP_GATTS_ADD_CHAR_EVT gatts_if param;
           Mutex_give;
           BLECharacteristicMap_handleGATTServerEvent ESP_GATTS_ADD_CHAR_EVT gatts_if' param']) /\
    BLECharacteristicMap.getByHandle (BLEService.m_characteristicMap this')
      (add_char_attr_handle (add_char param)) = Some a /\
    BLECharacteristicMap.getByHandle (BLEService.m_characteristicMap this')
      (add_char_attr_handle (add_char param')) = Some a.
Proof.
  unfold BLEService.getHandle. intros Hh Hh' Hu Hq Ec.
  cbn [service_run service_step fst snd].
  rewrite (bind_Ok _ _ _ _ (characteristic_added_Ok this chars gatts_if param a c Hh Hq Ec)).
  cbv beta. cbn [service_run service_step fst snd].
  rewrite <- Hu in Hq.
  rewrite (bind_Ok _ _ _ _
             (characteristic_added_Ok
                (BLEService.set_m_serializeMutex
                   (BLEService.set_m_characteristicMap this
                      (BLECharacteristicMap.setByHandle (BLEService.m_characteristicMap this)
                         (add_char_attr_handle (add_char param)) a)) false)
                (<[a := BLECharacteristic.setHandle c (add_char_attr_handle (add_char param))]>
                   chars)
                gatts_if' param' a
                (BLECharacteristic.setHandle c (add_char_attr_handle (add_char param)))
                Hh' Hq (lookup_insert_eq _ _ _))).
  cbn [ret]. rewrite insert_insert_eq.
  eexists. split; [reflexivity|].
  unfold BLECharacteristicMap.getByHandle. simpl. split; [|apply lookup_insert_eq].
  destruct (N.eq_dec (add_char_attr_handle (add_char param'))
              (add_char_attr_handle (add_char param))) as [->|Hne].
  - apply lookup_insert_eq.
  - rewrite lookup_insert_ne by exact Hne. apply lookup_insert_eq.
Qed.

Lemma second_characteristic_added_keeps_the_first_index_witness :
  exists this' chars' c',
    service_run (created_service, new_characteristics)
      [deliver_to_service ESP_GATTS_ADD_CHAR_EVT 3 (characteristic_added 42 U1);
       deliver_to_service ESP_GATTS_ADD_CHAR_EVT 3 (characteristic_added 50 U1)]
    = Ok ((this', chars'),
          [Mutex_give;
           BLECharacteristicMap_handleGATTServerEvent ESP_GATTS_ADD_CHAR_EVT 3
             (characteristic_added 42 U1);
           Mutex_give;
           BLECharacteristicMap_handleGATTServerEvent ESP_GATTS_ADD_CHAR_EVT 3
             (characteristic_added 50 U1)]) /\
    chars' !! 1 = Some c' /\
    BLECharacteristic.getHandle c' = 50 /\
    BLECharacteristicMap.getByHandle (BLEService.m_characteristicMap this') 42 = Some 1 /\
    BLECharacteristicMap.getByHandle (BLEService.m_characteristicMap this') 50 = Some 1.
Proof.
  destruct (second_characteristic_added_keeps_the_first_index created_service
              new_characteristics 3 3 (characteristic_added 42 U1) (characteristic_added 50 U1) 1
              {| BLECharacteristic.m_bleUUID := U1; BLECharacteristic.m_handle := 0;
                 BLECharacteristic.m_pService := Some 10 |})
    as (this' & Hrun & H42 & H50); try (vm_compute; reflexivity).
  exists this'. eexists. eexists.
  split; [exact Hrun|]. split; [apply lookup_insert_eq|]. split; [reflexivity|]. auto.
Defined.

(** * [toString] *)

Lemma append_cons (ch : ascii) (a b : string) :
  String.append (String ch a) b = String ch (String.append a b).
Proof. reflexivity. Qed.

Lemma append_cancel_l (a x y : string) : String.append a x = String.append a y -> x = y.
Proof.
  induction a as [|ch a IH]; [exact (fun E => E)|].
  rewrite !append_cons. intros [= E]. auto.
Qed.

Lemma append_assoc (a b c : string) :
  String.append (String.append a b) c = String.append a (String.append b c).
Proof.
  induction a as [|ch a IH]; [reflexivity|].
  rewrite !append_cons, IH. reflexivity.
Qed.

Lemma length_append (a b : string) :
  String.length (String.append a b) = (String.length a + String.length b)%nat.
Proof.
  induction a as [|ch a IH]; [reflexivity|].
  rewrite append_cons. cbn [String.length]. rewrite IH. reflexivity.
Qed.

Lemma length_fill (fill : ascii) (k : nat) :
  String.length (string_of_list_ascii (repeat fill k)) = k.
Proof. induction k as [|k IH]; cbn; [reflexivity|]. f_equal. exact IH. Qed.

Lemma hex_value_hex (n : N) : hex_value (hex n) = Some n.
Proof.
  unfold hex_value, hex. rewrite NilEmpty.usu. simpl.
  rewrite HexadecimalN.Unsigned.of_to. reflexivity.
Qed.

Lemma hex_value_leading_zeros (k : nat) (text : string) :
  hex_value (String.append (string_of_list_ascii (repeat "0"%char k)) text) = hex_value text.
Proof.
  induction k as [|k IH]; [reflexivity|].
  rewrite <- IH. cbn [repeat string_of_list_ascii]. rewrite append_cons.
  unfold hex_value. cbn [NilEmpty.uint_of_string].
  destruct (NilEmpty.uint_of_string _); reflexivity.
Qed.

(** The handle field of [toString]: at least two hexadecimal digits that
    stand for the handle. *)
Lemma handle_field (n : N) :
  (2 <= String.length (setw 2 "0" (hex n)))%nat /\
  hex_value (setw 2 "0" (hex n)) = Some n.
Proof.
  unfold setw. split.
  - rewrite length_append, length_fill. lia.
  - rewrite hex_value_leading_zeros. apply hex_value_hex.
Qed.

Section ToString.

Variable BLEUUID_toString : N -> string.

(** X19.  The text of a descriptor is "UUID: ", the text of its UUID,
    ", handle: 0x" and the handle in lower-case hexadecimal digits, at least
    two of them, padded with a zero; the digits read back as the handle.  So
    two descriptors with the same UUID have the same text only if they have
    the same handle. *)
Theorem descriptor_toString_shows_the_handle (this : BLEDescriptor.t) :
  (exists digits,
     BLEDescriptor.toString BLEUUID_toString this
     = String.append "UUID: "
         (String.append (BLEUUID_toString (BLEDescriptor.getUUID this))
            (String.append ", handle: 0x" digits)) /\
     (2 <= String.length digits)%nat /\
     hex_value digits = Some (BLEDescriptor.getHandle this)) /\
  (forall other : BLEDescriptor.t,
     BLEDescriptor.getUUID other = BLEDescriptor.getUUID this ->
     BLEDescriptor.toString BLEUUID_toString other = BLEDescriptor.toString BLEUUID_toString this ->
     BLEDescriptor.getHandle other = BLEDescriptor.getHandle this).
Proof.
  unfold BLEDescriptor.getUUID, BLEDescriptor.getHandle. split.
  - exists (setw 2 "0" (hex (BLEDescriptor.m_handle this))).
    split; [|apply handle_field].
    unfold BLEDescriptor.toString. rewrite append_assoc. reflexivity.
  - intros other Hu. unfold BLEDescriptor.toString. rewrite Hu.
    intros E%append_cancel_l%append_cancel_l.
    apply (f_equal hex_value) in E.
    rewrite !(proj2 (handle_field _)) in E. congruence.
Qed.

(** X20.  The text of a service has the same form, and the digits of its
    handle read back as the handle: two services with the same UUID have the
    same text only if they have the same handle, and a service and a
    descriptor with the same UUID and handle have the same text. *)
Theorem service_toString_shows_the_handle (this : BLEService.t) :
  (exists digits,
     BLEService.toString BLEUUID_toString this
     = String.append "UUID: "
         (String.append (BLEUUID_toString (BLEService.getUUID this))
            (String.append ", handle: 0x" digits)) /\
     (2 <= String.length digits)%nat /\
     hex_value digits = Some (BLEService.getHandle this)) /\
  (forall other : BLEService.t,
     BLEService.getUUID other = BLEService.getUUID this ->
     BLEService.toString BLEUUID_toString other = BLEService.toString BLEUUID_toString this ->
     BLEService.getHandle other = BLEService.getHandle this) /\
  (forall d : BLEDescriptor.t,
     BLEDescriptor.getUUID d = BLEService.getUUID this ->
     BLEDescriptor.getHandle d = BLEService.getHandle this ->
     BLEDescriptor.toString BLEUUID_toString d = BLEService.toString BLEUUID_toString this).
Proof.
  split; [|split].
  - exists (setw 2 "0" (hex (BLEService.getHandle this))).
    split; [reflexivity|apply handle_field].
  - intros other Hu. unfold BLEService.toString. rewrite Hu.
    intros E%append_cancel_l%append_cancel_l%append_cancel_l.
    apply (f_equal hex_value) in E.
    rewrite !(proj2 (handle_field _)) in E. congruence.
  - unfold BLEDescriptor.getUUID, BLEDescriptor.getHandle. intros d Hu Hh.
    unfold BLEDescriptor.toString, BLEService.toString. rewrite Hu, Hh, append_assoc.
    reflexivity.
Qed.

End ToString.

Lemma descriptor_toString_shows_the_handle_witness :
  BLEDescriptor.toString (fun uuid => hex uuid) (BLEDescriptor.setHandle fresh_descriptor 5)
  = "UUID: 2902, handle: 0x05"%string /\
  BLEDescriptor.toString (fun uuid => hex uuid) (BLEDescriptor.setHandle fresh_descriptor 299)
  = "UUID: 2902, handle: 0x12b"%string /\
  BLEDescriptor.getHandle (descriptor_of 1) = BLEDescriptor.getHandle fresh_descriptor.
Proof.
  split; [reflexivity|]. split; [reflexivity|].
  apply (proj2 (descriptor_toString_shows_the_handle (fun uuid => hex uuid) fresh_descriptor)
           (descriptor_of 1)); reflexivity.
Defined.

Lemma service_toString_shows_the_handle_witness :
  BLEService.toString (fun uuid => hex uuid) created_service
  = "UUID: 180f, handle: 0x28"%string /\
  BLEService.getHandle (BLEService.set_m_serializeMutex created_service false)
  = BLEService.getHandle created_service.
Proof.
  split; [reflexivity|].
  apply (proj1 (proj2 (service_toString_shows_the_handle (fun uuid => hex uuid) created_service))
           (BLEService.set_m_serializeMutex created_service false)); reflexivity.
Defined.

(** * Events always handled, and the lock *)

(** The characteristic a characteristic-added event for this service names,
    if the service has one registered, is an object that exists.  It holds
    in every state reached from construction ([service_run_keyed]). *)
Lemma keyed_named_characteristic_exists (this : BLEService.t)
    (chars : gmap N BLECharacteristic.t) (param : esp_ble_gatts_cb_param_t) :
  keyed_by_uuid this chars ->
  forall a,
    BLEService.getCharacteristic this (add_char_char_uuid (add_char param)) = Some a ->
    is_Some (chars !! a).
Proof. intros Hkey a Hq. destruct (Hkey _ _ Hq) as (c & Ec & _). eauto. Qed.

(** The handler returns for every event, provided the characteristic that a
    characteristic-added event for this service names exists. *)
Lemma service_event_returns (this : BLEService.t) (chars : gmap N BLECharacteristic.t)
    (event : esp_gatts_cb_event_t) (gatts_if : N) (param : esp_ble_gatts_cb_param_t) :
  (forall a,
     event = ESP_GATTS_ADD_CHAR_EVT ->
     BLEService.getHandle this = add_char_service_handle (add_char param) ->
     BLEService.getCharacteristic this (add_char_char_uuid (add_char param)) = Some a ->
     is_Some (chars !! a)) ->
  exists this' chars' t,
    BLEService.handleGATTServerEvent this chars event gatts_if param = Ok ((this', chars'), t).
Proof.
  unfold BLEService.getHandle. intros Hptr.
  unfold BLEService.handleGATTServerEvent, BLEService.case_ESP_GATTS_CREATE_EVT,
    BLEUUID_of_native.
  destruct event; simpl; try (do 3 eexists; reflexivity).
  - destruct (equals _ _); simpl; do 3 eexists; reflexivity.
  - destruct (_ =? _) eqn:Hh.
    + apply N.eqb_eq in Hh.
      destruct (BLEService.getCharacteristic this _) as [a|] eqn:Hq.
      * destruct (Hptr a eq_refl Hh eq_refl) as [c Ec]. unfold deref. rewrite Ec. simpl.
        do 3 eexists; reflexivity.
      * simpl. do 3 eexists; reflexivity.
    + destruct (equals _ _); simpl; do 3 eexists; reflexivity.
Qed.

(** X14.  Every event is handled and forwarded: read, write, creation,
    characteristic-added, descriptor-added and any other event, whatever its
    fields, provided that the characteristic a characteristic-added event for
    this service names exists (as it does in every state reached from
    construction).  The handler returns, and the event is forwarded to the
    characteristic map exactly once, as the last effect; before that there is
    nothing, or the lock is given back, or an error is logged and the lock is
    given back.  The handler never takes the lock and never calls the stack,
    and the lock is free afterwards exactly when it was free before or was
    given back. *)
Theorem service_event_is_forwarded_once (this : BLEService.t)
    (chars : gmap N BLECharacteristic.t) (event : esp_gatts_cb_event_t) (gatts_if : N)
    (param : esp_ble_gatts_cb_param_t) :
  (forall a,
     event = ESP_GATTS_ADD_CHAR_EVT ->
     BLEService.getHandle this = add_char_service_handle (add_char param) ->
     BLEService.getCharacteristic this (add_char_char_uuid (add_char param)) = Some a ->
     is_Some (chars !! a)) ->
  exists this' chars' before,
    BLEService.handleGATTServerEvent this chars event gatts_if param
    = Ok ((this', chars'),
          before ++ [BLECharacteristicMap_handleGATTServerEvent event gatts_if param]) /\
    ((before = [] /\
      BLEService.m_serializeMutex this' = BLEService.m_serializeMutex this) \/
     ((before = [Mutex_give] \/ exists e, before = [ESP_LOGE BLEService.LOG_TAG e; Mutex_give]) /\
      BLEService.m_serializeMutex this' = false)).
Proof.
  intros Hptr.
  destruct (service_event_returns this chars event gatts_if param Hptr)
    as (this' & chars' & t & E).
  destruct (service_event_effects _ _ _ _ _ _ _ _ E) as (before & -> & Hshape).
  exists this', chars', before. split; [exact E|exact Hshape].
Qed.

(** X14 on the scenario: a read event, and a characteristic-added event that
    names no characteristic of the service. *)
Lemma service_event_is_forwarded_once_witness :
  (exists this' chars' before,
     BLEService.handleGATTServerEvent created_service new_characteristics
       ESP_GATTS_READ_EVT 3 (read_request 43)
     = Ok ((this', chars'),
           before ++ [BLECharacteristicMap_handleGATTServerEvent ESP_GATTS_READ_EVT 3
                        (read_request 43)]) /\
     ((before = [] /\
       BLEService.m_serializeMutex this' = BLEService.m_serializeMutex created_service) \/
      ((before = [Mutex_give]
        \/ exists e, before = [ESP_LOGE BLEService.LOG_TAG e; Mutex_give]) /\
       BLEService.m_serializeMutex this' = false))) /\
  (exists this' chars' before,
     BLEService.handleGATTServerEvent created_service new_characteristics
       ESP_GATTS_ADD_CHAR_EVT 3 (characteristic_added 42 U1)
     = Ok ((this', chars'),
           before ++ [BLECharacteristicMap_handleGATTServerEvent ESP_GATTS_ADD_CHAR_EVT 3
                        (characteristic_added 42 U1)]) /\
     ((before = [] /\
       BLEService.m_serializeMutex this' = BLEService.m_serializeMutex created_service) \/
      ((before = [Mutex_give]
        \/ exists e, before = [ESP_LOGE BLEService.LOG_TAG e; Mutex_give]) /\
       BLEService.m_serializeMutex this' = false))).
Proof.
  split.
  - apply (service_event_is_forwarded_once created_service new_characteristics
             ESP_GATTS_READ_EVT 3 (read_request 43)).
    intros a Hev. discriminate Hev.
  - apply (service_event_is_forwarded_once created_service new_characteristics
             ESP_GATTS_ADD_CHAR_EVT 3 (characteristic_added 42 U1)).
    intros a _ _ Hq. vm_compute in Hq. injection Hq as <-.
    eexists. vm_compute. reflexivity.
Defined.



